(** * haex-sdk: the database API and the manifest reader

    A shallow embedding of [src/api/database.ts] (class [DatabaseAPI], in
    its two revisions: the one written against [HaexHubClient] and the one
    written against [HaexVaultClient]) and of [readManifest].

    - JavaScript values are a small inductive type, with the operators the
      sources use on them ([??], [||], truthiness, property access).
    - An [async] method is a tree of gateway requests: [await
      this.client.request(method, payload)] is a node whose continuation
      receives the fulfilled result.  Running a tree against a client
      threads the host's state and records the calls that were issued; a
      rejected request rejects the method, as [await] does outside of any
      [try].
    - [readManifest] runs in a monad of console output and exceptions, with
      [try]/[catch] as a combinator. *)

From Stdlib Require Import String Ascii List ZArith Bool Lia.
From ExtLib Require Import Structures.Monad.
Import ListNotations.
Import MonadNotation.

Set Warnings "-register-all".

Local Open Scope list_scope.
Local Open Scope string_scope.
Local Open Scope monad_scope.

(* ===================================================================== *)
(** ** JavaScript values *)
(* ===================================================================== *)

Module JS.

(** The values that flow through the SDK untouched ([unknown] in the
    sources) and the documents [JSON.parse] produces.  An object lists its
    own enumerable properties in enumeration order, the order in which
    [Object.keys] and [Object.values] report them. *)
Inductive JSValue : Type :=
| JUndefined
| JNull
| JBool (b : bool)
| JNum (n : Z)
| JStr (s : string)
| JArr (items : list JSValue)
| JObj (props : list (string * JSValue)).

(** [Record<string, unknown>] *)
Definition Record_ : Type := list (string * JSValue).

Definition Object_keys (data : Record_) : list string := map fst data.
Definition Object_values (data : Record_) : list JSValue := map snd data.

(** [v === undefined || v === null] *)
Definition is_nullish (v : JSValue) : bool :=
  match v with
  | JUndefined | JNull => true
  | _ => false
  end.

(** [a ?? b] on values that are already evaluated. *)
Definition nullish_or (a b : JSValue) : JSValue :=
  if is_nullish a then b else a.

(** ToBoolean: what [!v] and [v ? _ : _] test. *)
Definition truthy (v : JSValue) : bool :=
  match v with
  | JUndefined | JNull => false
  | JBool b => b
  | JNum n => negb (n =? 0)%Z
  | JStr s => negb (s =? "")
  | JArr _ | JObj _ => true
  end.

(** [params || []] for [params?: unknown[]]: an array is always truthy, so
    only the omitted argument takes the default. *)
Definition or_empty (params : option (list JSValue)) : list JSValue :=
  match params with
  | Some ps => ps
  | None => []
  end.

Fixpoint lookup (key : string) (props : list (string * JSValue)) : option JSValue :=
  match props with
  | [] => None
  | (k, v) :: rest => if k =? key then Some v else lookup key rest
  end.

(** [v.key] for a [v] that is neither [undefined] nor [null].  The keys the
    sources read ([count], [name], [version], ...) are not properties of
    any prototype nor array indices, so on anything but an object with that
    own property the answer is [undefined]. *)
Definition field (v : JSValue) (key : string) : JSValue :=
  match v with
  | JObj props =>
      match lookup key props with
      | Some x => x
      | None => JUndefined
      end
  | _ => JUndefined
  end.

(** [v.key]: reading a property of [undefined] or [null] throws a
    TypeError ([None]). *)
Definition get (v : JSValue) (key : string) : option JSValue :=
  if is_nullish v then None else Some (field v key).

(** [v?.key] *)
Definition get_optional (v : JSValue) (key : string) : JSValue :=
  if is_nullish v then JUndefined else field v key.

(** [Array.prototype.join] on an array of strings. *)
Definition join (sep : string) (parts : list string) : string :=
  String.concat sep parts.

(** How many times the character [c] occurs in [s]. *)
Fixpoint occurrences (c : ascii) (s : string) : nat :=
  match s with
  | EmptyString => 0
  | String a rest => (if Ascii.eqb a c then 1 else 0) + occurrences c rest
  end.

(** The occurrences of [c] in all the strings of a list. *)
Definition total_occurrences (c : ascii) (parts : list string) : nat :=
  list_sum (map (occurrences c) parts).

End JS.
Export JS.

Notation "a ?? b" := (nullish_or a b) (at level 45, left associativity).

(* ===================================================================== *)
(** ** The Request Gateway *)
(* ===================================================================== *)

Module Gateway.

(** [HAEXTENSION_METHODS.database.*], imported from [../methods]: the four
    method identifiers the database API uses, as opaque constants. *)
Inductive Method : Type :=
| database_query
| database_execute
| database_transaction
| database_registerMigrations.

(** [{ name: string; sql: string }] *)
Record Migration : Type := mkMigration {
  name : string;
  sql : string
}.

(** The payload objects the database API builds: [{ query, params }],
    [{ statements }] and [{ extensionVersion, migrations }]. *)
Inductive Payload : Type :=
| QueryPayload (query : string) (params : list JSValue)
| TransactionPayload (statements : list string)
| MigrationsPayload (extensionVersion : string) (migrations : list Migration).

(** [DatabaseQueryResult], imported from [../types]: the three fields the
    database API reads. *)
Record DatabaseQueryResult : Type := mkQueryResult {
  rows : list JSValue;
  rowsAffected : Z;
  lastInsertId : JSValue
}.

(** Modelled from the spec: the type [MigrationResult] of [../types], which
    is not among the sources.  Spec section 3: the count of migrations newly
    applied in this call, the count of migrations that were already applied
    previously, and the set of migration names that ended up applied. *)
Record MigrationResult : Type := mkMigrationResult {
  appliedCount : nat;
  alreadyAppliedCount : nat;
  appliedMigrations : list string
}.

(** The result type [TResult] of [request<TResult>] at each method. *)
Definition ResultOf (m : Method) : Type :=
  match m with
  | database_query | database_execute => DatabaseQueryResult
  | database_transaction => JSValue
  | database_registerMigrations => MigrationResult
  end.

(** One call of [client.request]. *)
Definition Call : Type := (Method * Payload)%type.

(** The SQL text of a gateway call. *)
Definition sql_text (c : Call) : list string :=
  match snd c with
  | QueryPayload q _ => [q]
  | TransactionPayload statements => statements
  | MigrationsPayload _ migrations => map sql migrations
  end.

(** The bound parameters of a gateway call. *)
Definition bound_parameters (c : Call) : list JSValue :=
  match snd c with
  | QueryPayload _ params => params
  | _ => []
  end.

(** How a promise settles.  A rejection reason is any value. *)
Inductive Outcome (A : Type) : Type :=
| Fulfilled (a : A)
| Rejected (reason : JSValue).
Arguments Fulfilled {A} a.
Arguments Rejected {A} reason.

(** The injected client.  The host behind it is opaque: it has a state of
    its own, and [request] answers a call in a state and moves to the next. *)
Record Client : Type := mkClient {
  Host : Type;
  request : forall m : Method, Payload -> Host -> Outcome (ResultOf m) * Host
}.

(** The body of an [async] method of [DatabaseAPI]: it returns, or awaits
    one request and goes on with the fulfilled result.  The class has no
    [throw] and no [try]. *)
Inductive Async (A : Type) : Type :=
| Return (a : A)
| Await (m : Method) (payload : Payload) (k : ResultOf m -> Async A).
Arguments Return {A} a.
Arguments Await {A} m payload k.

Fixpoint then_ {A B : Type} (p : Async A) (f : A -> Async B) : Async B :=
  match p with
  | Return a => f a
  | Await m payload k => Await m payload (fun r => then_ (k r) f)
  end.

#[export] Instance Monad_Async : Monad Async :=
  {| ret := @Return; bind := @then_ |}.

(** [await this.client.request<TResult>(method, payload)] *)
Definition client_request (m : Method) (payload : Payload) : Async (ResultOf m) :=
  Await m payload Return.

(** Running a method against a client from a host state: how the returned
    promise settles, the host state afterwards, and the calls issued, in
    order.  A rejected request rejects the method at that point. *)
Fixpoint run (client : Client) {A : Type} (p : Async A) (h : Host client)
  : Outcome A * Host client * list Call :=
  match p with
  | Return a => (Fulfilled a, h, [])
  | Await m payload k =>
      match request client m payload h with
      | (Fulfilled r, h') =>
          let '(o, h'', calls) := run client (k r) h' in
          (o, h'', (m, payload) :: calls)
      | (Rejected reason, h') => (Rejected reason, h', [(m, payload)])
      end
  end.

(** The request a method starts with, if it makes one. *)
Definition first_call {A : Type} (p : Async A) : option Call :=
  match p with
  | Return _ => None
  | Await m payload _ => Some (m, payload)
  end.

Definition outcome {A H : Type} (r : Outcome A * H * list Call) : Outcome A :=
  fst (fst r).
Definition calls {A H : Type} (r : Outcome A * H * list Call) : list Call :=
  snd r.

End Gateway.
Export Gateway.

(* ===================================================================== *)
(** ** [class DatabaseAPI] *)
(* ===================================================================== *)

Module DatabaseAPI.

(** The two revisions of the class in [src/api/database.ts] have the same
    text for every method but [registerMigrationsAsync]; the shared methods
    are embedded once. *)

(** [async query<T>(query, params?)] *)
Definition query (q : string) (params : option (list JSValue))
  : Async (list JSValue) :=
  result <- client_request database_query (QueryPayload q (or_empty params)) ;;
  ret (rows result).

(** [async queryOne<T>(query, params?)]:
    [rows.length > 0 ? rows[0] ?? null : null] *)
Definition queryOne (q : string) (params : option (list JSValue))
  : Async JSValue :=
  rows <- query q params ;;
  ret (if (0 <? length rows)%nat then nth 0 rows JUndefined ?? JNull else JNull).

(** [async execute(query, params?)] *)
Definition execute (q : string) (params : option (list JSValue))
  : Async DatabaseQueryResult :=
  client_request database_execute (QueryPayload q (or_empty params)).

(** [async transaction(statements)] *)
Definition transaction (statements : list string) : Async unit :=
  client_request database_transaction (TransactionPayload statements) ;;
  ret tt.

(** [async createTable(tableName, columns)] *)
Definition createTable (tableName columns : string) : Async unit :=
  let q := "CREATE TABLE IF NOT EXISTS " ++ tableName ++ " (" ++ columns ++ ")" in
  execute q None ;;
  ret tt.

(** [async dropTable(tableName)] *)
Definition dropTable (tableName : string) : Async unit :=
  let q := "DROP TABLE IF EXISTS " ++ tableName in
  execute q None ;;
  ret tt.

(** The SQL text [insert] builds. *)
Definition insert_query (tableName : string) (keys : list string) : string :=
  let placeholders := join ", " (map (fun _ => "?") keys) in
  "INSERT INTO " ++ tableName ++ " (" ++ join ", " keys
    ++ ") VALUES (" ++ placeholders ++ ")".

(** [async insert(tableName, data)] *)
Definition insert (tableName : string) (data : Record_) : Async JSValue :=
  let keys := Object_keys data in
  let values := Object_values data in
  let q := insert_query tableName keys in
  result <- execute q (Some values) ;;
  ret (lastInsertId result ?? JNum (-1)).

(** The SQL text [update] builds. *)
Definition update_query (tableName : string) (keys : list string)
  (where_ : string) : string :=
  let setClause := join ", " (map (fun key => key ++ " = ?") keys) in
  "UPDATE " ++ tableName ++ " SET " ++ setClause ++ " WHERE " ++ where_.

(** [async update(tableName, data, where, whereParams?)] *)
Definition update (tableName : string) (data : Record_) (where_ : string)
  (whereParams : option (list JSValue)) : Async Z :=
  let keys := Object_keys data in
  let values := Object_values data in
  let q := update_query tableName keys where_ in
  result <- execute q (Some (values ++ or_empty whereParams)%list) ;;
  ret (rowsAffected result).

(** [async delete(tableName, where, whereParams?)] *)
Definition delete (tableName where_ : string)
  (whereParams : option (list JSValue)) : Async Z :=
  let q := "DELETE FROM " ++ tableName ++ " WHERE " ++ where_ in
  result <- execute q whereParams ;;
  ret (rowsAffected result).

(** [async count(tableName, where?, whereParams?)]:
    [result?.count ?? 0] *)
Definition count (tableName : string) (where_ : option string)
  (whereParams : option (list JSValue)) : Async JSValue :=
  let q :=
    match where_ with
    | Some w =>
        if truthy (JStr w)
        then "SELECT COUNT(*) as count FROM " ++ tableName ++ " WHERE " ++ w
        else "SELECT COUNT(*) as count FROM " ++ tableName
    | None => "SELECT COUNT(*) as count FROM " ++ tableName
    end in
  result <- queryOne q whereParams ;;
  ret (get_optional result "count" ?? JNum 0).

(** The revision written against [HaexHubClient]. *)
Module HaexHub.

(** [async registerMigrationsAsync(extensionVersion, migrations):
    Promise<void>]: the request is awaited and its result dropped. *)
Definition registerMigrationsAsync (extensionVersion : string)
  (migrations : list Migration) : Async unit :=
  client_request database_registerMigrations
    (MigrationsPayload extensionVersion migrations) ;;
  ret tt.

End HaexHub.

(** The revision written against [HaexVaultClient]. *)
Module HaexVault.

(** [async registerMigrationsAsync(extensionVersion, migrations):
    Promise<MigrationResult>]: the request's promise is returned. *)
Definition registerMigrationsAsync (extensionVersion : string)
  (migrations : list Migration) : Async MigrationResult :=
  client_request database_registerMigrations
    (MigrationsPayload extensionVersion migrations).

End HaexVault.

(** The public methods of the class with their arguments, one constructor
    per method; [registerMigrationsAsync] once per revision. *)
Inductive Operation : Type :=
| Query (q : string) (params : option (list JSValue))
| QueryOne (q : string) (params : option (list JSValue))
| Execute (q : string) (params : option (list JSValue))
| Transaction (statements : list string)
| CreateTable (tableName columns : string)
| DropTable (tableName : string)
| RegisterMigrationsHub (extensionVersion : string) (migrations : list Migration)
| RegisterMigrationsVault (extensionVersion : string) (migrations : list Migration)
| Insert (tableName : string) (data : Record_)
| Update (tableName : string) (data : Record_) (where_ : string)
    (whereParams : option (list JSValue))
| Delete (tableName where_ : string) (whereParams : option (list JSValue))
| Count (tableName : string) (where_ : option string)
    (whereParams : option (list JSValue)).

(** The promise type of a method. *)
Definition Resolves (op : Operation) : Type :=
  match op with
  | Query _ _ => list JSValue
  | QueryOne _ _ | Insert _ _ | Count _ _ _ => JSValue
  | Execute _ _ => DatabaseQueryResult
  | Transaction _ | CreateTable _ _ | DropTable _ | RegisterMigrationsHub _ _ => unit
  | RegisterMigrationsVault _ _ => MigrationResult
  | Update _ _ _ _ | Delete _ _ _ => Z
  end.

(** Calling a method. *)
Definition invoke (op : Operation) : Async (Resolves op) :=
  match op return Async (Resolves op) with
  | Query q params => query q params
  | QueryOne q params => queryOne q params
  | Execute q params => execute q params
  | Transaction statements => transaction statements
  | CreateTable tableName columns => createTable tableName columns
  | DropTable tableName => dropTable tableName
  | RegisterMigrationsHub v ms => HaexHub.registerMigrationsAsync v ms
  | RegisterMigrationsVault v ms => HaexVault.registerMigrationsAsync v ms
  | Insert tableName data => insert tableName data
  | Update tableName data where_ whereParams =>
      update tableName data where_ whereParams
  | Delete tableName where_ whereParams => delete tableName where_ whereParams
  | Count tableName where_ whereParams => count tableName where_ whereParams
  end.

End DatabaseAPI.

(* ===================================================================== *)
(** ** [readManifest] *)
(* ===================================================================== *)

Module Manifest.

(** [interface ReadManifestOptions] *)
Record ReadManifestOptions : Type := mkOptions {
  rootDir : string;
  manifestPath : option string;
  extensionDir : option string
}.

(** [ExtensionManifest], imported from [./types]: the fields of the object
    literal [readManifest] returns.  [JSON.parse] is untyped, so a field
    holds whatever value the document has there. *)
Record ExtensionManifest : Type := mkManifest {
  name : JSValue;
  version : JSValue;
  author : JSValue;
  entry : JSValue;
  icon : JSValue;
  publicKey : JSValue;
  signature : JSValue;
  permissions : JSValue;
  homepage : JSValue;
  description : JSValue;
  singleInstance : JSValue;
  displayMode : JSValue
}.

(** What [readManifest] takes from Node: [readFileSync(path, "utf-8")]
    ([None] when it throws), [JSON.parse] ([None] when it throws) and
    [path.resolve]. *)
Record Node : Type := mkNode {
  readFileSync : string -> option string;
  JSON_parse : string -> option JSValue;
  resolvePath : list string -> string
}.

Inductive Exception : Type :=
| FileError (path : string)
| SyntaxError
| TypeError.

Inductive ConsoleLine : Type :=
| Warn (message : string)
| Log (message : string).

(** A synchronous computation: the lines written to the console, then the
    exception thrown or the value returned. *)
Definition Eff (A : Type) : Type := (list ConsoleLine * (Exception + A))%type.

Definition pure {A : Type} (a : A) : Eff A := ([], inr a).

Definition throw {A : Type} (e : Exception) : Eff A := ([], inl e).

Definition and_then {A B : Type} (c : Eff A) (f : A -> Eff B) : Eff B :=
  match c with
  | (out, inl e) => (out, inl e)
  | (out, inr a) => let '(out', r) := f a in ((out ++ out')%list, r)
  end.

#[export] Instance Monad_Eff : Monad Eff :=
  {| ret := @pure; bind := @and_then |}.

(** [try { body } catch (e) { handler }] *)
Definition try_catch {A : Type} (body : Eff A) (handler : Exception -> Eff A)
  : Eff A :=
  match body with
  | (out, inl e) => let '(out', r) := handler e in ((out ++ out')%list, r)
  | (out, inr a) => (out, inr a)
  end.

Definition console_warn (message : string) : Eff unit := ([Warn message], inr tt).
Definition console_log (message : string) : Eff unit := ([Log message], inr tt).

Definition read_file (node : Node) (path : string) : Eff string :=
  match readFileSync node path with
  | Some content => ret content
  | None => throw (FileError path)
  end.

Definition parse_json (node : Node) (text : string) : Eff JSValue :=
  match JSON_parse node text with
  | Some v => ret v
  | None => throw SyntaxError
  end.

(** [v.key] as an expression that may throw. *)
Definition prop (v : JSValue) (key : string) : Eff JSValue :=
  match get v key with
  | Some x => ret x
  | None => throw TypeError
  end.

(** [a ?? b] as an expression: [b] is evaluated only when [a] is nullish. *)
Definition coalesce (a b : Eff JSValue) : Eff JSValue :=
  x <- a ;;
  if is_nullish x then b else ret x.

(** The default of [parsed.permissions]. *)
Definition no_permissions : JSValue :=
  JObj [("database", JArr []); ("filesystem", JArr []);
        ("http", JArr []); ("shell", JArr [])].

(** The three characters that open the line logged on success, as the
    source file holds them (U+00E2, U+0153, U+201C), in UTF-8. *)
Definition check_mark : string :=
  String "195"%char (String "162"%char
    (String "197"%char (String "147"%char
      (String "226"%char (String "128"%char (String "156"%char "")))))).

(** [resolvedManifestPath] *)
Definition resolvedManifestPath (node : Node) (options : ReadManifestOptions)
  : string :=
  let extensionDir :=
    match extensionDir options with
    | Some d => d
    | None => "haextension"
    end in
  match manifestPath options with
  | Some p =>
      if truthy (JStr p)
      then resolvePath node [rootDir options; p]
      else resolvePath node [rootDir options; extensionDir; "manifest.json"]
  | None => resolvePath node [rootDir options; extensionDir; "manifest.json"]
  end.

(** The body of [readManifest] from the fallback of the four shared fields
    to the [return manifest]. *)
Definition merge (resolvedManifestPath : string) (parsed packageJson : JSValue)
  : Eff (option ExtensionManifest) :=
  name <- coalesce (prop parsed "name") (prop packageJson "name") ;;
  version <- coalesce (prop parsed "version") (prop packageJson "version") ;;
  author <- coalesce (coalesce (prop parsed "author") (prop packageJson "author"))
              (ret JNull) ;;
  homepage <- coalesce (coalesce (prop parsed "homepage") (prop packageJson "homepage"))
                (ret JNull) ;;
  if negb (truthy name) then
    console_warn "[@haexhub/sdk] Warning: No name found in manifest or package.json" ;;
    ret None
  else if negb (truthy version) then
    console_warn "[@haexhub/sdk] Warning: No version found in manifest or package.json" ;;
    ret None
  else
    entry <- coalesce (prop parsed "entry") (ret JNull) ;;
    icon <- coalesce (prop parsed "icon") (ret JNull) ;;
    publicKey <- coalesce (prop parsed "publicKey") (ret (JStr "")) ;;
    signature <- coalesce (prop parsed "signature") (ret (JStr "")) ;;
    permissions <- coalesce (prop parsed "permissions") (ret no_permissions) ;;
    description <- coalesce (prop parsed "description") (ret JNull) ;;
    singleInstance <- coalesce (prop parsed "singleInstance") (ret JNull) ;;
    displayMode <- coalesce (prop parsed "displayMode") (ret JNull) ;;
    let manifest :=
      mkManifest name version author entry icon publicKey signature
        permissions homepage description singleInstance displayMode in
    console_log (check_mark ++ " [@haexhub/sdk] Loaded " ++ resolvedManifestPath) ;;
    ret (Some manifest).

(** The inner [try]: [packageJson] starts as [{}] and is replaced by the
    parsed [package.json] when that can be read. *)
Definition read_package_json (node : Node) (options : ReadManifestOptions)
  : Eff JSValue :=
  try_catch
    (let packageJsonPath := resolvePath node [rootDir options; "package.json"] in
     text <- read_file node packageJsonPath ;;
     parse_json node text)
    (fun pkgError =>
       console_warn "[@haexhub/sdk] Warning: Could not read package.json" ;;
       ret (JObj [])).

(** [export function readManifest(options)] *)
Definition readManifest (node : Node) (options : ReadManifestOptions)
  : Eff (option ExtensionManifest) :=
  let resolvedManifestPath := resolvedManifestPath node options in
  try_catch
    (manifestContent <- read_file node resolvedManifestPath ;;
     parsed <- parse_json node manifestContent ;;
     packageJson <- read_package_json node options ;;
     merge resolvedManifestPath parsed packageJson)
    (fun error =>
       console_warn ("[@haexhub/sdk] Warning: manifest.json not found at "
                     ++ resolvedManifestPath
                     ++ ", extension info will not be available") ;;
       ret None).

(** [JSON.parse(readFileSync(path, "utf-8"))], [None] when either throws. *)
Definition load_json (node : Node) (path : string) : option JSValue :=
  match readFileSync node path with
  | Some text => JSON_parse node text
  | None => None
  end.

(** The value of [packageJson] after the inner [try]: the parsed
    [package.json], or the initial [{}] when it could not be read. *)
Definition package_json (node : Node) (options : ReadManifestOptions) : JSValue :=
  match load_json node (resolvePath node [rootDir options; "package.json"]) with
  | Some v => v
  | None => JObj []
  end.

(** A document supplies [key] when it has a value there that is neither
    [undefined] nor [null]. *)
Definition supplies (document : JSValue) (key : string) : bool :=
  negb (is_nullish (field document key)).

(** The layered reading of the two documents: each field is the manifest's
    value when the manifest has one, else the fallback.  [merge] is proved
    below to compute this whenever no property read throws. *)
Definition layered (resolvedManifestPath : string) (parsed packageJson : JSValue)
  : Eff (option ExtensionManifest) :=
  let name := field parsed "name" ?? field packageJson "name" in
  let version := field parsed "version" ?? field packageJson "version" in
  if negb (truthy name) then
    ([Warn "[@haexhub/sdk] Warning: No name found in manifest or package.json"],
     inr None)
  else if negb (truthy version) then
    ([Warn "[@haexhub/sdk] Warning: No version found in manifest or package.json"],
     inr None)
  else
    ([Log (check_mark ++ " [@haexhub/sdk] Loaded " ++ resolvedManifestPath)],
     inr (Some
            {| name := name;
               version := version;
               author := field parsed "author" ?? field packageJson "author" ?? JNull;
               entry := field parsed "entry" ?? JNull;
               icon := field parsed "icon" ?? JNull;
               publicKey := field parsed "publicKey" ?? JStr "";
               signature := field parsed "signature" ?? JStr "";
               permissions := field parsed "permissions" ?? no_permissions;
               homepage := field parsed "homepage" ?? field packageJson "homepage"
                           ?? JNull;
               description := field parsed "description" ?? JNull;
               singleInstance := field parsed "singleInstance" ?? JNull;
               displayMode := field parsed "displayMode" ?? JNull |})).

(** The line the outer [catch] writes. *)
Definition not_found (resolvedManifestPath : string) : ConsoleLine :=
  Warn ("[@haexhub/sdk] Warning: manifest.json not found at "
        ++ resolvedManifestPath ++ ", extension info will not be available").

(** What the inner [catch] writes: nothing when [package.json] was read and
    parsed, its warning otherwise. *)
Definition package_warning (node : Node) (options : ReadManifestOptions)
  : list ConsoleLine :=
  match load_json node (resolvePath node [rootDir options; "package.json"]) with
  | Some _ => []
  | None => [Warn "[@haexhub/sdk] Warning: Could not read package.json"]
  end.

(** The manifest supplies the four fields that have a fallback. *)
Definition supplies_shared_fields (parsed : JSValue) : bool :=
  supplies parsed "name" && supplies parsed "version"
  && supplies parsed "author" && supplies parsed "homepage".

(** A line was logged to the console. *)
Definition logged (out : list ConsoleLine) : bool :=
  existsb (fun line => match line with Log _ => true | Warn _ => false end) out.

(** A warning was written to the console. *)
Definition warned (out : list ConsoleLine) : bool :=
  existsb (fun line => match line with Warn _ => true | Log _ => false end) out.

End Manifest.

(* ===================================================================== *)
(** ** The host's migration engine *)
(* ===================================================================== *)

Module Vault.

(** Modelled from the spec: the migration engine of the host (HaexVault),
    which lives outside these sources; the SDK only reaches it through
    [client.request].  Spec sections 3 and 4.1 and the comment on
    [registerMigrationsAsync]: the host validates every SQL statement and
    rejects the call before any side effect when one is disallowed; it
    stores the migrations with [applied_at = NULL]; it queries the pending
    migrations sorted by name, applies them and marks them with an
    [applied_at] timestamp; a migration whose name is already marked applied
    is not applied again.  The result counts the migrations newly applied in
    this call and those already applied previously, and lists the names that
    ended up applied.  A set with a duplicate name is rejected.  A
    migration may fail when it is applied: it is then not marked applied,
    and the host either aborts the call or skips it and goes on. *)
Record MigrationRow : Type := mkRow {
  row_name : string;
  row_sql : string;
  row_version : string;
  applied_at : option nat
}.

(** Modelled from the spec: the state the host persists, with the log of the
    migrations it has applied, by name, in the order it applied them. *)
Record State : Type := mkState {
  table : list MigrationRow;
  clock : nat;
  applied_log : list string
}.


Definition is_pending (r : MigrationRow) : bool :=
  match applied_at r with
  | None => true
  | Some _ => false
  end.

Definition is_applied (r : MigrationRow) : bool := negb (is_pending r).

Definition named (n : string) (r : MigrationRow) : bool := row_name r =? n.

Definition stored (s : State) (n : string) : bool :=
  existsb (named n) (table s).

(** Modelled from the spec: the name [n] is marked applied. *)
Definition marked_applied (s : State) (n : string) : bool :=
  existsb (fun r => (row_name r =? n) && is_applied r) (table s).

Fixpoint unique_names (names : list string) : bool :=
  match names with
  | [] => true
  | n :: rest => negb (existsb (String.eqb n) rest) && unique_names rest
  end.

Fixpoint insert_by_name (r : MigrationRow) (sorted : list MigrationRow)
  : list MigrationRow :=
  match sorted with
  | [] => [r]
  | r' :: rest =>
      if String.leb (row_name r) (row_name r')
      then r :: sorted
      else r' :: insert_by_name r rest
  end.

(** Modelled from the spec: ascending order by name. *)
Definition sort_by_name (rs : list MigrationRow) : list MigrationRow :=
  fold_right insert_by_name [] rs.

(** Modelled from the spec: step 2, the submitted migrations that are not
    stored yet are stored with [applied_at = NULL]. *)
Fixpoint store (version : string) (ms : list Migration) (tbl : list MigrationRow)
  : list MigrationRow :=
  match ms with
  | [] => tbl
  | m :: rest =>
      let tbl' :=
        if existsb (named (name m)) tbl then tbl
        else (tbl ++ [mkRow (name m) (sql m) version None])%list in
      store version rest tbl'
  end.

(** Modelled from the spec: step 3, the pending migrations sorted by name. *)
Definition pending (tbl : list MigrationRow) : list MigrationRow :=
  sort_by_name (filter is_pending tbl).

(** Modelled from the spec: what the spec leaves to the host.  [allowed]
    is its validation of a SQL body (namespace isolation, well-formedness);
    [applies done body] tells whether [body] applies on a database on which
    the migrations [done] have been applied; [abort_on_failure] is the
    failure policy: abort the whole call at a failed migration, or skip the
    failed migration and go on with the others. *)
Record Engine : Type := mkEngine {
  allowed : string -> bool;
  applies : list string -> string -> bool;
  abort_on_failure : bool
}.

(** Modelled from the spec: step 4, the pending migrations are applied in
    order; the result is the names of those that applied. *)
Fixpoint apply_pending (applies : list string -> string -> bool)
  (todo : list MigrationRow) (done : list string) : list string :=
  match todo with
  | [] => []
  | r :: rest =>
      if applies done (row_sql r)
      then row_name r :: apply_pending applies rest (done ++ [row_name r])%list
      else apply_pending applies rest done
  end.

(** Modelled from the spec: step 5, the pending rows of the migrations that
    applied get the timestamp; a failed migration stays unmarked. *)
Definition mark_applied (now : nat) (applied_now : list string)
  (tbl : list MigrationRow) : list MigrationRow :=
  map (fun r => if is_pending r && existsb (String.eqb (row_name r)) applied_now
                then mkRow (row_name r) (row_sql r) (row_version r) (Some now)
                else r) tbl.

(** Modelled from the spec: one registration call on the host. *)
Definition register (engine : Engine) (version : string)
  (ms : list Migration) (s : State) : Outcome MigrationResult * State :=
  if negb (forallb (fun m => allowed engine (sql m)) ms) then
    (Rejected (JStr "migration touches a table outside the extension"), s)
  else if negb (unique_names (map name ms)) then
    (Rejected (JStr "duplicate migration name"), s)
  else
    let already := filter (fun m => marked_applied s (name m)) ms in
    let stored_table := store version ms (table s) in
    let todo := pending stored_table in
    let applied_now := apply_pending (applies engine) todo (applied_log s) in
    if abort_on_failure engine && negb (length applied_now =? length todo)%nat then
      (Rejected (JStr "migration failed"), s)
    else
      let final_table := mark_applied (clock s) applied_now stored_table in
      let result :=
        mkMigrationResult (length applied_now) (length already)
          (map row_name (filter is_applied final_table)) in
      (Fulfilled result,
       mkState final_table (S (clock s)) (applied_log s ++ applied_now)%list).

(** Modelled from the spec: a migration name identifies one stored row. *)
Definition well_formed (s : State) : bool :=
  unique_names (map row_name (table s)).

(** Modelled from the spec: the client of an extension whose host runs this
    engine.  The other methods are outside the model and are refused. *)
Definition client (engine : Engine) : Client :=
  mkClient State
    (fun m =>
       match m return Payload -> State -> Outcome (ResultOf m) * State with
       | database_registerMigrations => fun payload s =>
           match payload with
           | MigrationsPayload version ms => register engine version ms s
           | _ => (Rejected (JStr "malformed payload"), s)
           end
       | _ => fun _ s => (Rejected (JStr "not modelled"), s)
       end).

End Vault.

(* ===================================================================== *)
(** ** Clients and files for the worked examples *)
(* ===================================================================== *)

Module Examples.

(** A client that replays scripted answers to [query] and [execute], one
    per call, and has lost its channel when the script is over. *)
Definition replay : Client :=
  mkClient (list DatabaseQueryResult)
    (fun m =>
       match m return Payload -> list DatabaseQueryResult
                      -> Outcome (ResultOf m) * list DatabaseQueryResult with
       | database_query | database_execute => fun _ script =>
           match script with
           | answer :: rest => (Fulfilled answer, rest)
           | [] => (Rejected (JStr "channel closed"), [])
           end
       | database_transaction => fun _ script =>
           match script with
           | _ :: rest => (Fulfilled JUndefined, rest)
           | [] => (Rejected (JStr "channel closed"), [])
           end
       | database_registerMigrations => fun _ script =>
           match script with
           | _ :: rest => (Fulfilled (mkMigrationResult 0 0 []), rest)
           | [] => (Rejected (JStr "channel closed"), [])
           end
       end).

(** A host that applies a submitted set the first time it sees one and
    reports it as already applied from then on. *)
Definition apply_once : Client :=
  mkClient bool
    (fun m =>
       match m return Payload -> bool -> Outcome (ResultOf m) * bool with
       | database_registerMigrations => fun payload seen =>
           match payload with
           | MigrationsPayload _ ms =>
               (Fulfilled
                  (if seen
                   then mkMigrationResult 0 (length ms) (map name ms)
                   else mkMigrationResult (length ms) 0 (map name ms)),
                true)
           | _ => (Rejected (JStr "malformed payload"), seen)
           end
       | _ => fun _ seen => (Rejected (JStr "not modelled"), seen)
       end).

Definition create_notes : Migration :=
  mkMigration "0001_notes" "CREATE TABLE ext_notes (id INTEGER PRIMARY KEY)".




(** A project directory: the files that exist, each with the document its
    text parses to.  The text of a file is stood for by its path, and
    [path.resolve] joins its arguments with a slash. *)
Definition project (files : list (string * JSValue)) : Manifest.Node :=
  Manifest.mkNode
    (fun path => if existsb (fun f => fst f =? path) files then Some path else None)
    (fun text => lookup text files)
    (String.concat "/").

Definition in_ext : Manifest.ReadManifestOptions :=
  Manifest.mkOptions "/ext" None None.

(** The manifest has a name and no version; [package.json] has both. *)
Definition notes_project : Manifest.Node :=
  project
    [("/ext/haextension/manifest.json", JObj [("name", JStr "notes")]);
     ("/ext/package.json",
      JObj [("name", JStr "notes-package"); ("version", JStr "1.2.3")])].

(** The manifest has an empty name and no version; [package.json] has a
    name and the version. *)
Definition empty_name_project : Manifest.Node :=
  project
    [("/ext/haextension/manifest.json", JObj [("name", JStr "")]);
     ("/ext/package.json",
      JObj [("name", JStr "notes-package"); ("version", JStr "1.2.3")])].

(** The manifest file holds [null]; [package.json] has a name and the
    version. *)
Definition null_manifest_project : Manifest.Node :=
  project
    [("/ext/haextension/manifest.json", JNull);
     ("/ext/package.json",
      JObj [("name", JStr "notes-package"); ("version", JStr "1.2.3")])].

(** Neither the manifest nor [package.json] has a name. *)
Definition nameless_project : Manifest.Node :=
  project
    [("/ext/haextension/manifest.json", JObj [("version", JStr "0.1.0")]);
     ("/ext/package.json", JObj [("private", JBool true)])].

End Examples.

(* ===================================================================== *)
(** * Properties *)
(* ===================================================================== *)

(** ** Running requests *)

Section Running.

Variable client : Client.

Lemma run_client_request (m : Method) (payload : Payload) (h : Host client) :
  run client (client_request m payload) h
  = (fst (request client m payload h), snd (request client m payload h),
     [(m, payload)]).
Proof.
  unfold client_request. simpl.
  destruct (request client m payload h) as [[r | reason] h']; reflexivity.
Qed.

(** A method that awaits one request and then returns a function of its
    result. *)
Lemma run_request_then {A : Type} (m : Method) (payload : Payload)
  (f : ResultOf m -> A) (h : Host client) :
  run client (Await m payload (fun r => Return (f r))) h
  = (match fst (request client m payload h) with
     | Fulfilled r => Fulfilled (f r)
     | Rejected reason => Rejected reason
     end,
     snd (request client m payload h), [(m, payload)]).
Proof.
  simpl. destruct (request client m payload h) as [[r | reason] h']; reflexivity.
Qed.

Lemma run_rejected {A : Type} (m : Method) (payload : Payload)
  (k : ResultOf m -> Async A) (h h' : Host client) (reason : JSValue) :
  request client m payload h = (Rejected reason, h') ->
  run client (Await m payload k) h = (Rejected reason, h', [(m, payload)]).
Proof. intros E. simpl. rewrite E. reflexivity. Qed.

(** Sequencing: the second method runs from the host state the first one
    left, if the first one was fulfilled. *)
Lemma run_bind {A B : Type} (p : Async A) (f : A -> Async B) (h : Host client) :
  run client (bind p f) h
  = match run client p h with
    | (Fulfilled a, h', cs) =>
        let '(o, h'', cs') := run client (f a) h' in (o, h'', (cs ++ cs')%list)
    | (Rejected reason, h', cs) => (Rejected reason, h', cs)
    end.
Proof.
  revert h. induction p as [a | m payload k IH]; intros h; simpl.
  - destruct (run client (f a) h) as [[o h''] cs']. reflexivity.
  - destruct (request client m payload h) as [[r | reason] h']; [| reflexivity].
    specialize (IH r h'). simpl in IH. rewrite IH.
    destruct (run client (k r) h') as [[[a | reason] h''] cs]; [| reflexivity].
    destruct (run client (f a) h'') as [[o h3] cs']. reflexivity.
Qed.

End Running.

(** ** Migration registration *)

Import DatabaseAPI.

Lemma run_registerMigrationsAsync_vault
  (client : Client) (extensionVersion : string) (migrations : list Migration)
  (h : Host client) :
  run client (HaexVault.registerMigrationsAsync extensionVersion migrations) h
  = (fst (request client database_registerMigrations
            (MigrationsPayload extensionVersion migrations) h),
     snd (request client database_registerMigrations
            (MigrationsPayload extensionVersion migrations) h),
     [(database_registerMigrations, MigrationsPayload extensionVersion migrations)]).
Proof.
  exact (run_client_request client database_registerMigrations
           (MigrationsPayload extensionVersion migrations) h).
Qed.

Lemma run_registerMigrationsAsync_hub
  (client : Client) (extensionVersion : string) (migrations : list Migration)
  (h : Host client) :
  run client (HaexHub.registerMigrationsAsync extensionVersion migrations) h
  = (match fst (request client database_registerMigrations
                  (MigrationsPayload extensionVersion migrations) h) with
     | Fulfilled _ => Fulfilled tt
     | Rejected reason => Rejected reason
     end,
     snd (request client database_registerMigrations
            (MigrationsPayload extensionVersion migrations) h),
     [(database_registerMigrations, MigrationsPayload extensionVersion migrations)]).
Proof.
  exact (run_request_then client database_registerMigrations
           (MigrationsPayload extensionVersion migrations) (fun _ => tt) h).
Qed.

(** C1 (as amended): in the revision written against [HaexVaultClient],
    [registerMigrationsAsync] settles exactly as the gateway's request does:
    when the gateway produces a [MigrationResult] (the count newly applied,
    the count already applied, the applied names) the caller receives that
    very value, and when it rejects the caller receives that rejection.  In
    the revision written against [HaexHubClient] the same request is made
    but the promise is a [Promise<void>]: a fulfilled request resolves it
    with no value. *)
Theorem registerMigrationsAsync_returns_gateway_result
  (client : Client) (extensionVersion : string) (migrations : list Migration)
  (h : Host client) :
  let answer := request client database_registerMigrations
                  (MigrationsPayload extensionVersion migrations) h in
  run client (HaexVault.registerMigrationsAsync extensionVersion migrations) h
  = (fst answer, snd answer,
     [(database_registerMigrations, MigrationsPayload extensionVersion migrations)])
  /\ run client (HaexHub.registerMigrationsAsync extensionVersion migrations) h
     = (match fst answer with
        | Fulfilled _ => Fulfilled tt
        | Rejected reason => Rejected reason
        end,
        snd answer,
        [(database_registerMigrations, MigrationsPayload extensionVersion migrations)]).
Proof.
  cbv zeta. split.
  - apply run_registerMigrationsAsync_vault.
  - apply run_registerMigrationsAsync_hub.
Qed.

(** C1, as stated, fails on the revision written against [HaexHubClient]:
    the gateway reports one migration applied now, and on the next call the
    same migration as already applied, and the method resolves with no value
    both times. *)
Lemma HaexHub_registerMigrationsAsync_drops_result :
  let submit := MigrationsPayload "1.0.0" [Examples.create_notes] in
  let call := HaexHub.registerMigrationsAsync "1.0.0" [Examples.create_notes] in
  fst (request Examples.apply_once database_registerMigrations submit false)
    = Fulfilled (mkMigrationResult 1 0 ["0001_notes"])
  /\ outcome (run Examples.apply_once call false) = Fulfilled tt
  /\ fst (request Examples.apply_once database_registerMigrations submit true)
     = Fulfilled (mkMigrationResult 0 1 ["0001_notes"])
  /\ outcome (run Examples.apply_once call true) = Fulfilled tt.
Proof. repeat split. Qed.

(** C2: one call of [registerMigrationsAsync], in either revision, issues
    exactly one gateway request, under the method identifier of
    registerMigrations, whose payload holds [extensionVersion] and the
    [migrations] sequence as they were passed: the same elements in the
    same order.  Nothing is kept from one call to the next: a second call
    issues the request of its own arguments only (and is not reached when
    the first request is rejected). *)
Theorem registerMigrationsAsync_one_unchanged_request
  (client : Client) (extensionVersion : string) (migrations : list Migration)
  (h : Host client) :
  let submit := (database_registerMigrations,
                 MigrationsPayload extensionVersion migrations) in
  let fulfilled :=
    match fst (request client database_registerMigrations
                 (MigrationsPayload extensionVersion migrations) h) with
    | Fulfilled _ => true
    | Rejected _ => false
    end in
  calls (run client (HaexVault.registerMigrationsAsync extensionVersion migrations) h)
    = [submit]
  /\ calls (run client (HaexHub.registerMigrationsAsync extensionVersion migrations) h)
     = [submit]
  /\ forall (version' : string) (migrations' : list Migration),
       let submit' := (database_registerMigrations,
                       MigrationsPayload version' migrations') in
       calls (run client
                (HaexVault.registerMigrationsAsync extensionVersion migrations ;;
                 HaexVault.registerMigrationsAsync version' migrations') h)
         = submit :: (if fulfilled then [submit'] else [])
       /\ calls (run client
                   (HaexHub.registerMigrationsAsync extensionVersion migrations ;;
                    HaexHub.registerMigrationsAsync version' migrations') h)
          = submit :: (if fulfilled then [submit'] else []).
Proof.
  cbv zeta.
  pose proof (run_registerMigrationsAsync_vault client
                extensionVersion migrations h) as EV.
  pose proof (run_registerMigrationsAsync_hub client
                extensionVersion migrations h) as EH.
  repeat split.
  - rewrite EV. reflexivity.
  - rewrite EH. reflexivity.
  - rewrite run_bind, EV.
    destruct (request client database_registerMigrations
                (MigrationsPayload extensionVersion migrations) h)
      as [[r | reason] h']; simpl; [| reflexivity].
    destruct (request client database_registerMigrations
                (MigrationsPayload version' migrations') h')
      as [[r' | reason'] h'']; reflexivity.
  - rewrite run_bind, EH.
    destruct (request client database_registerMigrations
                (MigrationsPayload extensionVersion migrations) h)
      as [[r | reason] h']; simpl; [| reflexivity].
    destruct (request client database_registerMigrations
                (MigrationsPayload version' migrations') h')
      as [[r' | reason'] h'']; reflexivity.
Qed.

(** ** Failures of the gateway *)

(** Every method awaits a single request and returns a function of its
    result; [run] then makes one call whatever the answer. *)
Ltac one_request :=
  simpl;
  match goal with
  | |- context [request ?c ?m ?p ?h] =>
      destruct (request c m p h) as [[? | ?] ?]
  end;
  reflexivity.

Lemma invoke_starts_with_a_request (op : Operation) :
  first_call (invoke op) <> None.
Proof. destruct op; discriminate. Qed.

Lemma invoke_makes_one_call (client : Client) (op : Operation) (h : Host client)
  (c : Call) :
  first_call (invoke op) = Some c -> calls (run client (invoke op) h) = [c].
Proof.
  destruct op; intros E; injection E as <-; unfold calls; one_request.
Qed.

(** C4: every operation of [DatabaseAPI] ([query], [queryOne], [execute],
    [transaction], [createTable], [dropTable], [registerMigrationsAsync] in
    both revisions, [insert], [update], [delete], [count]), on every input,
    starts with a gateway request and makes no other; if the gateway rejects
    that request with some reason, the operation is rejected with the same
    reason, the host is left as the gateway left it, and that request is the
    only call made: no retry, no second call, no change to the failure. *)
Theorem gateway_failure_is_the_operation_failure
  (client : Client) (op : Operation) :
  exists (m : Method) (payload : Payload),
    first_call (invoke op) = Some (m, payload)
    /\ (forall h : Host client, calls (run client (invoke op) h) = [(m, payload)])
    /\ forall (h h' : Host client) (reason : JSValue),
         request client m payload h = (Rejected reason, h') ->
         run client (invoke op) h = (Rejected reason, h', [(m, payload)]).
Proof.
  destruct (first_call (invoke op)) as [[m payload] |] eqn:E.
  - exists m, payload. split; [reflexivity |]. split.
    + intros h. apply invoke_makes_one_call. exact E.
    + intros h h' reason R.
      destruct op; simpl in E; injection E as <- <-; simpl; rewrite R; reflexivity.
  - exfalso. exact (invoke_starts_with_a_request op E).
Qed.

(** The witness of C4: with the channel closed, [insert] fails with the
    gateway's own reason after its single call. *)
Lemma gateway_failure_is_the_operation_failure_witness :
  run Examples.replay (insert "t" [("a", JNum 1)]) []
  = (Rejected (JStr "channel closed"), [],
     [(database_execute, QueryPayload "INSERT INTO t (a) VALUES (?)" [JNum 1])]).
Proof.
  destruct (gateway_failure_is_the_operation_failure Examples.replay
              (Insert "t" [("a", JNum 1)])) as (m & payload & First & _ & Fails).
  injection First as <- <-.
  apply (Fails [] [] (JStr "channel closed")).
  reflexivity.
Defined.

(** ** The query helpers *)

Lemma run_insert (client : Client) (tableName : string) (data : Record_)
  (h : Host client) :
  let q := QueryPayload (insert_query tableName (Object_keys data))
             (Object_values data) in
  run client (insert tableName data) h
  = (match fst (request client database_execute q h) with
     | Fulfilled result => Fulfilled (lastInsertId result ?? JNum (-1))
     | Rejected reason => Rejected reason
     end,
     snd (request client database_execute q h), [(database_execute, q)]).
Proof.
  exact (run_request_then client database_execute
           (QueryPayload (insert_query tableName (Object_keys data))
              (Object_values data))
           (fun result => lastInsertId result ?? JNum (-1)) h).
Qed.

Lemma run_update (client : Client) (tableName : string) (data : Record_)
  (where_ : string) (whereParams : option (list JSValue)) (h : Host client) :
  let q := QueryPayload (update_query tableName (Object_keys data) where_)
             (Object_values data ++ or_empty whereParams)%list in
  run client (update tableName data where_ whereParams) h
  = (match fst (request client database_execute q h) with
     | Fulfilled result => Fulfilled (rowsAffected result)
     | Rejected reason => Rejected reason
     end,
     snd (request client database_execute q h), [(database_execute, q)]).
Proof.
  exact (run_request_then client database_execute
           (QueryPayload (update_query tableName (Object_keys data) where_)
              (Object_values data ++ or_empty whereParams)%list)
           rowsAffected h).
Qed.

(** C5: [insert("t", {a: 1, b: 2})] issues a single gateway call, an
    [execute] whose SQL text is [INSERT INTO t (a, b) VALUES (?, ?)] and
    whose bound parameters are [[1, 2]]; when the gateway's result reports a
    last-inserted identifier, that identifier is what [insert] returns. *)
Theorem insert_t_a1_b2 (client : Client) (h : Host client) :
  let data := [("a", JNum 1); ("b", JNum 2)] in
  let q := QueryPayload "INSERT INTO t (a, b) VALUES (?, ?)" [JNum 1; JNum 2] in
  calls (run client (insert "t" data) h) = [(database_execute, q)]
  /\ forall (result : DatabaseQueryResult) (h' : Host client),
       request client database_execute q h = (Fulfilled result, h') ->
       is_nullish (lastInsertId result) = false ->
       run client (insert "t" data) h
       = (Fulfilled (lastInsertId result), h', [(database_execute, q)]).
Proof.
  cbv zeta.
  pose proof (run_insert client "t" [("a", JNum 1); ("b", JNum 2)] h) as E.
  cbv zeta in E.
  change (QueryPayload (insert_query _ _) _)
    with (QueryPayload "INSERT INTO t (a, b) VALUES (?, ?)" [JNum 1; JNum 2]) in E.
  rewrite E. split.
  - reflexivity.
  - intros result h' R Reported. rewrite R. simpl.
    unfold nullish_or. rewrite Reported. reflexivity.
Qed.

(** The witness of C5: the host answers the insertion with identifier 7. *)
Lemma insert_t_a1_b2_witness :
  run Examples.replay (insert "t" [("a", JNum 1); ("b", JNum 2)])
    [mkQueryResult [] 1 (JNum 7)]
  = (Fulfilled (JNum 7), [],
     [(database_execute,
       QueryPayload "INSERT INTO t (a, b) VALUES (?, ?)" [JNum 1; JNum 2])]).
Proof.
  apply (proj2 (insert_t_a1_b2 Examples.replay [mkQueryResult [] 1 (JNum 7)])
           (mkQueryResult [] 1 (JNum 7)) []).
  - reflexivity.
  - reflexivity.
Defined.

(** C6: two records with the same keys in the same order give [insert], on
    the same table, the same SQL text, whatever their values, their clients
    and the host states; and so for [update] with the same [where] string.
    The values travel in the bound parameter list: the parameters of
    [insert] are the record's values, those of [update] the record's values
    followed by [whereParams]. *)
Theorem values_never_reach_the_sql_text
  (client1 client2 : Client) (h1 : Host client1) (h2 : Host client2)
  (tableName where_ : string) (data1 data2 : Record_)
  (whereParams1 whereParams2 : option (list JSValue)) :
  Object_keys data1 = Object_keys data2 ->
  map sql_text (calls (run client1 (insert tableName data1) h1))
    = map sql_text (calls (run client2 (insert tableName data2) h2))
  /\ map sql_text (calls (run client1 (update tableName data1 where_ whereParams1) h1))
     = map sql_text (calls (run client2 (update tableName data2 where_ whereParams2) h2))
  /\ map bound_parameters (calls (run client1 (insert tableName data1) h1))
     = [Object_values data1]
  /\ map bound_parameters
       (calls (run client1 (update tableName data1 where_ whereParams1) h1))
     = [(Object_values data1 ++ or_empty whereParams1)%list].
Proof.
  intros Keys. rewrite !run_insert, !run_update. cbv zeta. unfold calls. simpl.
  unfold sql_text. simpl. rewrite Keys. repeat split.
Qed.

(** The witness of C6: two rows of the same shape. *)
Lemma values_never_reach_the_sql_text_witness :
  map sql_text
    (calls (run Examples.replay (insert "t" [("a", JNum 1); ("b", JStr "x")]) []))
  = map sql_text
      (calls (run Examples.replay
                (insert "t" [("a", JStr "'); DROP TABLE t; --"); ("b", JNull)]) [])).
Proof.
  apply (values_never_reach_the_sql_text Examples.replay Examples.replay [] []
           "t" "id = ?" [("a", JNum 1); ("b", JStr "x")]
           [("a", JStr "'); DROP TABLE t; --"); ("b", JNull)] None None).
  reflexivity.
Defined.

(** C9: when the gateway's [execute] result has no [lastInsertId]
    ([undefined] or [null]), [insert] is fulfilled with [-1]. *)
Theorem insert_without_lastInsertId
  (client : Client) (tableName : string) (data : Record_)
  (h h' : Host client) (result : DatabaseQueryResult) :
  request client database_execute
    (QueryPayload (insert_query tableName (Object_keys data)) (Object_values data)) h
    = (Fulfilled result, h') ->
  is_nullish (lastInsertId result) = true ->
  outcome (run client (insert tableName data) h) = Fulfilled (JNum (-1)).
Proof.
  intros R Absent. rewrite run_insert. cbv zeta. unfold outcome. simpl.
  rewrite R. simpl. unfold nullish_or. rewrite Absent. reflexivity.
Qed.

(** The witness of C9: a result without [lastInsertId]. *)
Lemma insert_without_lastInsertId_witness :
  outcome (run Examples.replay (insert "t" [("a", JNum 1)])
             [mkQueryResult [] 0 JUndefined])
  = Fulfilled (JNum (-1)).
Proof.
  apply (insert_without_lastInsertId Examples.replay "t" [("a", JNum 1)]
           [mkQueryResult [] 0 JUndefined] [] (mkQueryResult [] 0 JUndefined)).
  - reflexivity.
  - reflexivity.
Defined.

(** C10: [queryOne] returns the first element of the row list [query]
    returns when that list is not empty ([null] when that element is itself
    [undefined] or [null]), and [null] when the list is empty; no other row
    is ever returned. *)
Theorem queryOne_first_row_or_null
  (client : Client) (q : string) (params : option (list JSValue))
  (h h' : Host client) (rows : list JSValue) (issued : list Call) :
  run client (query q params) h = (Fulfilled rows, h', issued) ->
  run client (queryOne q params) h
  = (Fulfilled match rows with
               | [] => JNull
               | first :: _ => if is_nullish first then JNull else first
               end,
     h', issued).
Proof.
  unfold queryOne. rewrite run_bind. intros ->. simpl.
  rewrite app_nil_r. destruct rows as [| first rest]; reflexivity.
Qed.

(** The witness of C10: two rows come back, the first is returned. *)
Lemma queryOne_first_row_or_null_witness :
  run Examples.replay (queryOne "SELECT * FROM t" None)
    [mkQueryResult [JStr "first"; JStr "second"] 0 JUndefined]
  = (Fulfilled (JStr "first"), [],
     [(database_query, QueryPayload "SELECT * FROM t" [])]).
Proof.
  apply (queryOne_first_row_or_null Examples.replay "SELECT * FROM t" None
           [mkQueryResult [JStr "first"; JStr "second"] 0 JUndefined] []
           [JStr "first"; JStr "second"]
           [(database_query, QueryPayload "SELECT * FROM t" [])]).
  reflexivity.
Defined.

(** ** Reading the manifest *)

Section ReadingTheManifest.

Import Manifest.

Lemma bind_pure {A B : Type} (a : A) (f : A -> Eff B) : bind (pure a) f = f a.
Proof. cbn. destruct (f a). reflexivity. Qed.

Lemma bind_throw {A B : Type} (e : Exception) (f : A -> Eff B) :
  bind (throw e) f = throw e.
Proof. reflexivity. Qed.

Lemma prop_of_value (v : JSValue) (key : string) :
  is_nullish v = false -> prop v key = pure (field v key).
Proof. intros H. unfold prop, JS.get. rewrite H. reflexivity. Qed.

Lemma prop_of_nullish (v : JSValue) (key : string) :
  is_nullish v = true -> prop v key = throw TypeError.
Proof. intros H. unfold prop, JS.get. rewrite H. reflexivity. Qed.

Lemma coalesce_pure (x : JSValue) (b : Eff JSValue) :
  coalesce (pure x) b = if is_nullish x then b else pure x.
Proof. unfold coalesce. rewrite bind_pure. reflexivity. Qed.

Lemma coalesce_throw (e : Exception) (b : Eff JSValue) :
  coalesce (throw e) b = throw e.
Proof. reflexivity. Qed.

Lemma coalesce_values (x y : JSValue) : coalesce (pure x) (pure y) = pure (x ?? y).
Proof.
  rewrite coalesce_pure. unfold nullish_or. destruct (is_nullish x); reflexivity.
Qed.

Lemma nullish_or_supplied (x y : JSValue) : is_nullish x = false -> x ?? y = x.
Proof. intros H. unfold nullish_or. rewrite H. reflexivity. Qed.

Lemma nullish_or_missing (x y : JSValue) : is_nullish x = true -> x ?? y = y.
Proof. intros H. unfold nullish_or. rewrite H. reflexivity. Qed.

Lemma nullish_is_falsy (x : JSValue) : is_nullish x = true -> truthy x = false.
Proof. destruct x; simpl; congruence. Qed.

(** No property of a [null] manifest can be read. *)
Lemma merge_null_manifest (path : string) (parsed packageJson : JSValue) :
  is_nullish parsed = true -> merge path parsed packageJson = throw TypeError.
Proof.
  intros H. unfold merge. rewrite !prop_of_nullish by assumption. reflexivity.
Qed.

(** With two documents [merge] never throws and is the layered reading. *)
Lemma merge_documents (path : string) (parsed packageJson : JSValue) :
  is_nullish parsed = false -> is_nullish packageJson = false ->
  merge path parsed packageJson = layered path parsed packageJson.
Proof.
  intros H H0. unfold merge. rewrite !prop_of_value by assumption.
  change (@ret Eff Monad_Eff) with (@pure).
  rewrite !coalesce_values, !bind_pure. reflexivity.
Qed.

(** With a [null] [package.json] the first field the manifest lacks among
    the four shared ones makes [merge] throw; when it lacks none the
    fallback is never read. *)
Lemma merge_null_package (path : string) (parsed packageJson : JSValue) :
  is_nullish parsed = false -> is_nullish packageJson = true ->
  merge path parsed packageJson
  = if supplies parsed "name" && supplies parsed "version"
       && supplies parsed "author" && supplies parsed "homepage"
    then layered path parsed packageJson
    else throw TypeError.
Proof.
  intros H H0. unfold merge, supplies.
  rewrite !(prop_of_value parsed) by assumption.
  rewrite !(prop_of_nullish packageJson) by assumption.
  change (@ret Eff Monad_Eff) with (@pure).
  rewrite !(coalesce_pure _ (throw TypeError)).
  destruct (is_nullish (field parsed "name")) eqn:N; [reflexivity |].
  rewrite bind_pure.
  destruct (is_nullish (field parsed "version")) eqn:V; [reflexivity |].
  rewrite bind_pure.
  destruct (is_nullish (field parsed "author")) eqn:A; [reflexivity |].
  destruct (is_nullish (field parsed "homepage")) eqn:Hp; simpl negb; simpl andb.
  - rewrite !coalesce_values, !bind_pure. reflexivity.
  - rewrite !coalesce_values, !bind_pure.
    unfold layered.
    rewrite !(nullish_or_supplied (field parsed "name")) by assumption.
    rewrite !(nullish_or_supplied (field parsed "version")) by assumption.
    rewrite !(nullish_or_supplied (field parsed "author")) by assumption.
    rewrite !(nullish_or_supplied (field parsed "homepage")) by assumption.
    reflexivity.
Qed.

Lemma read_package_json_value (node : Node) (options : ReadManifestOptions) :
  exists out, read_package_json node options = (out, inr (package_json node options)).
Proof.
  unfold read_package_json, package_json, load_json, read_file, parse_json.
  destruct (readFileSync node _) as [text |]; cbn.
  - destruct (JSON_parse node text) as [v |]; cbn; eexists; reflexivity.
  - eexists; reflexivity.
Qed.

(** [readManifest] in closed form: the outer [catch] turns whatever is
    thrown into the warning and [null]. *)
Lemma readManifest_unfolded (node : Node) (options : ReadManifestOptions) :
  let path := resolvedManifestPath node options in
  exists before : list ConsoleLine,
    readManifest node options
    = match load_json node path with
      | None => ([not_found path], inr None)
      | Some parsed =>
          match merge path parsed (package_json node options) with
          | (out, inl _) => (before ++ out ++ [not_found path], inr None)%list
          | (out, inr result) => (before ++ out, inr result)%list
          end
      end.
Proof.
  cbv zeta. unfold readManifest, load_json, read_file, parse_json.
  destruct (read_package_json_value node options) as [before P].
  exists before.
  destruct (readFileSync node _) as [text |]; [| reflexivity].
  change (@ret Eff Monad_Eff) with (@pure). rewrite bind_pure.
  destruct (JSON_parse node text) as [parsed |]; [| reflexivity].
  rewrite bind_pure, P.
  cbn -[merge].
  destruct (merge (resolvedManifestPath node options) parsed
              (package_json node options)) as [out [e | result]];
    cbn; [| reflexivity].
  rewrite <- app_assoc. reflexivity.
Qed.

Lemma warned_app (out out' : list ConsoleLine) :
  warned (out ++ out') = warned out || warned out'.
Proof. apply existsb_app. Qed.

Lemma layered_some (path : string) (parsed packageJson : JSValue)
  (out : list ConsoleLine) (m : ExtensionManifest) :
  layered path parsed packageJson = (out, inr (Some m)) ->
  name m = field parsed "name" ?? field packageJson "name"
  /\ version m = field parsed "version" ?? field packageJson "version"
  /\ author m = field parsed "author" ?? field packageJson "author" ?? JNull
  /\ homepage m = field parsed "homepage" ?? field packageJson "homepage" ?? JNull.
Proof.
  unfold layered.
  destruct (negb (truthy (field parsed "name" ?? field packageJson "name")));
    [discriminate |].
  destruct (negb (truthy (field parsed "version" ?? field packageJson "version")));
    [discriminate |].
  intros E. injection E as _ <-. repeat split.
Qed.

(** Whenever [readManifest] returns a manifest, it is the layered reading
    of the manifest document and of [packageJson]. *)
Lemma readManifest_some (node : Node) (options : ReadManifestOptions)
  (out : list ConsoleLine) (m : ExtensionManifest) :
  readManifest node options = (out, inr (Some m)) ->
  exists (parsed : JSValue) (out' : list ConsoleLine),
    load_json node (resolvedManifestPath node options) = Some parsed
    /\ layered (resolvedManifestPath node options) parsed (package_json node options)
       = (out', inr (Some m)).
Proof.
  destruct (readManifest_unfolded node options) as [before E]. cbv zeta in E.
  rewrite E. clear E.
  destruct (load_json node (resolvedManifestPath node options)) as [parsed |];
    [| discriminate].
  intros R. exists parsed.
  destruct (is_nullish parsed) eqn:P.
  - rewrite merge_null_manifest in R by assumption. discriminate.
  - destruct (is_nullish (package_json node options)) eqn:K.
    + rewrite merge_null_package in R by assumption.
      destruct (supplies parsed "name" && supplies parsed "version"
                && supplies parsed "author" && supplies parsed "homepage");
        [| discriminate].
      destruct (layered _ parsed (package_json node options)) as [out' [e | r]];
        [discriminate |].
      injection R as _ ->. exists out'. split; reflexivity.
    + rewrite merge_documents in R by assumption.
      destruct (layered _ parsed (package_json node options)) as [out' [e | r]];
        [discriminate |].
      injection R as _ ->. exists out'. split; reflexivity.
Qed.

(** C7 (as amended): when the manifest file parses to a document (any JSON
    value but [null]) that has no [version], the companion [package.json]
    supplies the version ["1.2.3"], and the name that precedence picks (the
    manifest's name if it has one, even an empty one, else the one of
    [package.json]) is truthy, [readManifest] returns a manifest whose
    version is ["1.2.3"].  And in
    every manifest [readManifest] returns, each of [name], [version],
    [author] and [homepage] that the manifest file supplies has the manifest
    file's value, whatever [package.json] holds there. *)
Theorem readManifest_version_falls_back_to_package_json
  (node : Node) (options : ReadManifestOptions) (parsed : JSValue) :
  load_json node (resolvedManifestPath node options) = Some parsed ->
  let packageJson := package_json node options in
  (is_nullish parsed = false ->
   supplies parsed "version" = false ->
   field packageJson "version" = JStr "1.2.3" ->
   truthy (field parsed "name" ?? field packageJson "name") = true ->
   exists (out : list ConsoleLine) (m : ExtensionManifest),
     readManifest node options = (out, inr (Some m))
     /\ version m = JStr "1.2.3")
  /\ forall (out : list ConsoleLine) (m : ExtensionManifest),
       readManifest node options = (out, inr (Some m)) ->
       (supplies parsed "name" = true -> name m = field parsed "name")
       /\ (supplies parsed "version" = true -> version m = field parsed "version")
       /\ (supplies parsed "author" = true -> author m = field parsed "author")
       /\ (supplies parsed "homepage" = true -> homepage m = field parsed "homepage").
Proof.
  intros Loaded packageJson. split.
  - intros Document NoVersion PkgVersion Name.
    destruct (readManifest_unfolded node options) as [before E]. cbv zeta in E.
    rewrite E, Loaded. clear E.
    assert (is_nullish packageJson = false) as Pkg.
    { destruct packageJson; try reflexivity; simpl in PkgVersion; discriminate. }
    fold packageJson. rewrite merge_documents by assumption.
    unfold layered. rewrite Name. simpl negb. cbv iota.
    unfold supplies in NoVersion. apply negb_false_iff in NoVersion.
    rewrite (nullish_or_missing (field parsed "version")) by assumption.
    rewrite PkgVersion. simpl.
    eexists. eexists. split; reflexivity.
  - intros out m R.
    destruct (readManifest_some node options out m R) as (parsed' & out' & L & Lay).
    rewrite Loaded in L. injection L as <-.
    destruct (layered_some _ _ _ _ _ Lay) as (N & V & A & Hp).
    unfold supplies. rewrite !negb_true_iff.
    repeat split; intros S.
    + rewrite N. apply nullish_or_supplied. exact S.
    + rewrite V. apply nullish_or_supplied. exact S.
    + rewrite A, (nullish_or_supplied _ _ S). apply nullish_or_supplied. exact S.
    + rewrite Hp, (nullish_or_supplied _ _ S). apply nullish_or_supplied. exact S.
Qed.

(** The witness of C7: the manifest names the extension and
    [package.json] gives the version. *)
Lemma readManifest_version_falls_back_to_package_json_witness :
  exists (out : list ConsoleLine) (m : ExtensionManifest),
    readManifest Examples.notes_project Examples.in_ext = (out, inr (Some m))
    /\ version m = JStr "1.2.3".
Proof.
  apply (proj1 (readManifest_version_falls_back_to_package_json
                  Examples.notes_project Examples.in_ext
                  (JObj [("name", JStr "notes")]) eq_refl));
    reflexivity.
Defined.

(** C7, as stated, fails in two ways.  A manifest with an empty [name] and
    no [version] parses, and [package.json] supplies a name and the version
    ["1.2.3"]: the manifest's empty name takes precedence and [readManifest]
    returns [null].  A manifest file that holds [null] parses and has no
    [version] either: reading its [name] throws, and the outer [catch]
    returns [null]. *)
Lemma readManifest_empty_name_or_null_manifest :
  let packageJson := JObj [("name", JStr "notes-package"); ("version", JStr "1.2.3")] in
  load_json Examples.empty_name_project
    (resolvedManifestPath Examples.empty_name_project Examples.in_ext)
    = Some (JObj [("name", JStr "")])
  /\ package_json Examples.empty_name_project Examples.in_ext = packageJson
  /\ snd (readManifest Examples.empty_name_project Examples.in_ext) = inr None
  /\ load_json Examples.null_manifest_project
       (resolvedManifestPath Examples.null_manifest_project Examples.in_ext)
     = Some JNull
  /\ package_json Examples.null_manifest_project Examples.in_ext = packageJson
  /\ snd (readManifest Examples.null_manifest_project Examples.in_ext) = inr None.
Proof. repeat split. Qed.

(** C8: [readManifest] never throws: on every input it returns.  When the
    manifest file is missing or unparseable, when neither the manifest nor
    [package.json] supplies a [name], and when neither supplies a
    [version], it returns [null] after writing a warning to the console. *)
Theorem readManifest_never_throws
  (node : Node) (options : ReadManifestOptions) :
  let manifest := load_json node (resolvedManifestPath node options) in
  let packageJson := package_json node options in
  (exists (out : list ConsoleLine) (result : option ExtensionManifest),
     readManifest node options = (out, inr result))
  /\ (manifest = None
      \/ (exists parsed : JSValue,
            manifest = Some parsed
            /\ ((supplies parsed "name" = false /\ supplies packageJson "name" = false)
                \/ (supplies parsed "version" = false
                    /\ supplies packageJson "version" = false))) ->
      exists out : list ConsoleLine,
        readManifest node options = (out, inr None) /\ warned out = true).
Proof.
  cbv zeta.
  destruct (readManifest_unfolded node options) as [before E]. cbv zeta in E.
  rewrite E. clear E.
  set (path := resolvedManifestPath node options).
  set (packageJson := package_json node options).
  assert (forall out : list ConsoleLine,
             warned (before ++ out ++ [not_found path]) = true) as Caught.
  { intros out. rewrite !warned_app. simpl. rewrite !orb_true_r. reflexivity. }
  split.
  - destruct (load_json node path) as [parsed |]; [| eexists; eexists; reflexivity].
    destruct (merge path parsed packageJson) as [out [e | result]];
      eexists; eexists; reflexivity.
  - intros [Missing | (parsed & Loaded & Unsupplied)].
    + rewrite Missing. eexists. split; reflexivity.
    + rewrite Loaded.
      destruct (is_nullish parsed) eqn:P.
      { rewrite merge_null_manifest by assumption. simpl.
        eexists. split; [reflexivity | apply (Caught [])]. }
      destruct (is_nullish packageJson) eqn:K.
      { rewrite merge_null_package by assumption.
        replace (supplies parsed "name" && supplies parsed "version"
                 && supplies parsed "author" && supplies parsed "homepage")
          with false
          by (destruct Unsupplied as [[-> _] | [-> _]];
              [reflexivity | rewrite andb_false_r; reflexivity]).
        simpl. eexists. split; [reflexivity | apply (Caught [])]. }
      rewrite merge_documents by assumption. unfold layered.
      assert (forall key : string,
                 supplies parsed key = false -> supplies packageJson key = false ->
                 truthy (field parsed key ?? field packageJson key) = false)
        as Falsy.
      { intros key S S'. unfold supplies in S, S'.
        apply negb_false_iff in S, S'.
        rewrite nullish_or_missing by assumption.
        apply nullish_is_falsy. exact S'. }
      destruct Unsupplied as [[S S'] | [S S']].
      * rewrite (Falsy "name" S S'). simpl.
        eexists. split; [reflexivity |].
        rewrite warned_app. simpl. apply orb_true_r.
      * rewrite (Falsy "version" S S').
        destruct (truthy (field parsed "name" ?? field packageJson "name"));
          simpl; eexists; (split; [reflexivity |]);
          rewrite warned_app; simpl; apply orb_true_r.
Qed.

(** The witness of C8: no name anywhere. *)
Lemma readManifest_never_throws_witness :
  exists out : list ConsoleLine,
    readManifest Examples.nameless_project Examples.in_ext = (out, inr None)
    /\ warned out = true.
Proof.
  apply (proj2 (readManifest_never_throws Examples.nameless_project Examples.in_ext)).
  right. exists (JObj [("version", JStr "0.1.0")]).
  split; [reflexivity |]. left. split; reflexivity.
Defined.

End ReadingTheManifest.

(** ** Registering the same migrations again *)

Section Idempotence.

Import Vault.

Variable engine : Engine.



Lemma existsb_named (tbl : list MigrationRow) (n : string) :
  existsb (named n) tbl = true <-> exists r, In r tbl /\ row_name r = n.
Proof.
  rewrite existsb_exists. unfold named.
  split; intros (r & I & E); exists r; (split; [exact I |]);
    apply String.eqb_eq; exact E.
Qed.






Lemma length_insert_by_name (r : MigrationRow) (sorted : list MigrationRow) :
  length (insert_by_name r sorted) = S (length sorted).
Proof.
  induction sorted as [| r' rest IH]; simpl; [reflexivity |].
  destruct (String.leb (row_name r) (row_name r')); simpl; congruence.
Qed.

Lemma length_sort_by_name (rs : list MigrationRow) :
  length (sort_by_name rs) = length rs.
Proof.
  induction rs as [| r rest IH]; simpl; [reflexivity |].
  rewrite length_insert_by_name, IH. reflexivity.
Qed.

Lemma unique_names_NoDup (names : list string) :
  unique_names names = true <-> NoDup names.
Proof.
  induction names as [| n rest IH]; simpl.
  - split; [constructor | reflexivity].
  - rewrite andb_true_iff, negb_true_iff, IH. split.
    + intros [N D]. constructor; [| exact D].
      intros I. apply not_true_iff_false in N. apply N.
      apply existsb_exists. exists n. split; [exact I | apply String.eqb_refl].
    + intros D. inversion D as [| ? ? N D']; subst. split; [| exact D'].
      apply not_true_iff_false. intros E. apply existsb_exists in E.
      destruct E as (n' & I & E). apply String.eqb_eq in E. subst n'.
      exact (N I).
Qed.



Lemma NoDup_snoc (names : list string) (n : string) :
  NoDup names -> ~ In n names -> NoDup (names ++ [n]).
Proof.
  induction names as [| x rest IH]; simpl; intros D N.
  - constructor; [intros [] | constructor].
  - inversion D as [| ? ? Nx D']; subst. constructor.
    + intros I. apply in_app_or in I. destruct I as [I | [-> | []]].
      * exact (Nx I).
      * apply N. left. reflexivity.
    + apply IH; [exact D' |]. intros I. apply N. right. exact I.
Qed.

(** The table stays well formed. *)
Lemma store_well_formed (version : string) (ms : list Migration)
  (tbl : list MigrationRow) :
  NoDup (map row_name tbl) -> NoDup (map row_name (store version ms tbl)).
Proof.
  revert tbl. induction ms as [| m rest IH]; intros tbl D; simpl; [exact D |].
  apply IH. destruct (existsb (named (name m)) tbl) eqn:S; [exact D |].
  rewrite map_app. simpl.
  apply NoDup_snoc; [exact D |].
  intros I. apply in_map_iff in I. destruct I as (r & E & I).
  apply not_true_iff_false in S. apply S.
  apply existsb_named. exists r. split; assumption.
Qed.

Lemma mark_applied_names (now : nat) (names : list string)
  (tbl : list MigrationRow) :
  map row_name (mark_applied now names tbl) = map row_name tbl.
Proof.
  unfold mark_applied. rewrite map_map. apply map_ext.
  intros r. destruct (is_pending r && existsb (String.eqb (row_name r)) names);
    reflexivity.
Qed.







(** What a fulfilled registration did, step by step. *)
Lemma register_fulfilled (version : string) (ms : list Migration)
  (s s' : State) (r : MigrationResult) :
  register engine version ms s = (Fulfilled r, s') ->
  let stored_table := store version ms (table s) in
  let applied_now :=
    apply_pending (applies engine) (pending stored_table) (applied_log s) in
  forallb (fun m => allowed engine (sql m)) ms = true
  /\ unique_names (map name ms) = true
  /\ (abort_on_failure engine = true ->
      length applied_now = length (pending stored_table))
  /\ table s' = mark_applied (clock s) applied_now stored_table
  /\ applied_log s' = (applied_log s ++ applied_now)%list
  /\ appliedCount r = length applied_now
  /\ alreadyAppliedCount r
     = length (filter (fun m => marked_applied s (name m)) ms).
Proof.
  unfold register.
  destruct (forallb (fun m => allowed engine (sql m)) ms); [| discriminate].
  destruct (unique_names (map name ms)); [| discriminate].
  simpl negb. cbv iota.
  destruct (abort_on_failure engine) eqn:A; simpl andb.
  - destruct (length _ =? length _)%nat eqn:L; simpl negb; cbv iota;
      [| discriminate].
    intros E. injection E as <- <-. simpl. apply Nat.eqb_eq in L.
    repeat split. intros _. exact L.
  - intros E. injection E as <- <-. simpl. repeat split. discriminate.
Qed.


Lemma register_well_formed (version : string) (ms : list Migration)
  (s s' : State) (r : MigrationResult) :
  well_formed s = true ->
  register engine version ms s = (Fulfilled r, s') ->
  well_formed s' = true.
Proof.
  unfold well_formed. intros W R.
  destruct (register_fulfilled _ _ _ _ _ R) as (_ & _ & _ & T & _).
  rewrite T, mark_applied_names. apply unique_names_NoDup.
  apply store_well_formed. apply unique_names_NoDup. exact W.
Qed.


End Idempotence.



(* ===================================================================== *)
(** * Further properties of [DatabaseAPI] *)
(* ===================================================================== *)

Section OptionalArguments.

(** X2: an omitted [params] (or [whereParams]) is the empty parameter list:
    [query], [queryOne], [execute], [delete], [update] and [count] are the
    same call with the argument left out and with [[]].  For [count] an
    empty [where] string is no [where] at all, and [whereParams] is sent
    along either way. *)
Theorem omitted_arguments_take_their_defaults
  (q tableName where_ : string) (data : Record_)
  (whereParams : option (list JSValue)) :
  query q None = query q (Some [])
  /\ queryOne q None = queryOne q (Some [])
  /\ execute q None = execute q (Some [])
  /\ delete tableName where_ None = delete tableName where_ (Some [])
  /\ update tableName data where_ None = update tableName data where_ (Some [])
  /\ count tableName (Some where_) None = count tableName (Some where_) (Some [])
  /\ count tableName (Some "") whereParams = count tableName None whereParams
  /\ first_call (count tableName None whereParams)
     = Some (database_query,
             QueryPayload ("SELECT COUNT(*) as count FROM " ++ tableName)
               (or_empty whereParams)).
Proof. repeat split. Qed.

End OptionalArguments.

Section Placeholders.

Lemma occurrences_append (c : ascii) (s1 s2 : string) :
  occurrences c (s1 ++ s2) = occurrences c s1 + occurrences c s2.
Proof.
  induction s1 as [| a rest IH]; simpl; [reflexivity |].
  rewrite IH. apply Nat.add_assoc.
Qed.

Lemma occurrences_join (c : ascii) (sep : string) (parts : list string) :
  occurrences c (join sep parts)
  = total_occurrences c parts + pred (length parts) * occurrences c sep.
Proof.
  unfold join, total_occurrences.
  induction parts as [| x rest IH]; [reflexivity |].
  destruct rest as [| y rest'].
  - simpl. lia.
  - change (String.concat sep (x :: y :: rest'))
      with (x ++ sep ++ String.concat sep (y :: rest')).
    rewrite !occurrences_append, IH. simpl. lia.
Qed.

Lemma placeholders_of_insert (keys : list string) :
  occurrences "?" (join ", " (map (fun _ => "?") keys)) = length keys.
Proof.
  rewrite occurrences_join, length_map. unfold total_occurrences.
  rewrite map_map. simpl.
  replace (list_sum (map (fun _ : string => 1) keys)) with (length keys);
    [lia |].
  induction keys as [| k rest IH]; simpl; congruence.
Qed.

Lemma placeholders_of_update (keys : list string) :
  occurrences "?" (join ", " (map (fun key => key ++ " = ?") keys))
  = total_occurrences "?" keys + length keys.
Proof.
  rewrite occurrences_join, length_map. unfold total_occurrences.
  rewrite map_map. simpl.
  replace (list_sum (map (fun key : string => occurrences "?" (key ++ " = ?")) keys))
    with (list_sum (map (occurrences "?") keys) + length keys); [lia |].
  induction keys as [| k rest IH]; simpl; [reflexivity |].
  rewrite <- IH, occurrences_append. simpl. lia.
Qed.

(** X3: the SQL text [insert] sends holds exactly one [?] placeholder per
    bound parameter, besides the question marks the table name and the
    column names carry themselves; the bound parameters are as many as the
    record has keys. *)
Theorem insert_has_one_placeholder_per_parameter
  (client : Client) (tableName : string) (data : Record_) (h : Host client) :
  exists (text : string) (bound : list JSValue),
    calls (run client (insert tableName data) h)
      = [(database_execute, QueryPayload text bound)]
    /\ length bound = length (Object_keys data)
    /\ occurrences "?" text
       = occurrences "?" tableName + total_occurrences "?" (Object_keys data)
         + length bound.
Proof.
  exists (insert_query tableName (Object_keys data)), (Object_values data).
  split; [rewrite run_insert; reflexivity |].
  unfold Object_values, Object_keys. rewrite !length_map.
  split; [reflexivity |].
  unfold insert_query. rewrite !occurrences_append, placeholders_of_insert.
  rewrite occurrences_join, length_map. simpl. lia.
Qed.

(** X4: the SQL text [update] sends holds one [?] placeholder per value of
    the record, besides the question marks of the table name, of the column
    names and of the [where] string; the bound parameters are the record's
    values followed by [whereParams], so the placeholders and the parameters
    agree in number exactly when those of the [where] string and
    [whereParams] do. *)
Theorem update_has_one_placeholder_per_value
  (client : Client) (tableName where_ : string) (data : Record_)
  (whereParams : option (list JSValue)) (h : Host client) :
  exists (text : string) (bound : list JSValue),
    calls (run client (update tableName data where_ whereParams) h)
      = [(database_execute, QueryPayload text bound)]
    /\ length bound = length (Object_keys data) + length (or_empty whereParams)
    /\ occurrences "?" text
       = occurrences "?" tableName + total_occurrences "?" (Object_keys data)
         + occurrences "?" where_ + length (Object_keys data).
Proof.
  exists (update_query tableName (Object_keys data) where_),
    (Object_values data ++ or_empty whereParams)%list.
  split; [rewrite run_update; reflexivity |].
  unfold Object_values, Object_keys. rewrite length_app, !length_map.
  split; [reflexivity |].
  unfold update_query. rewrite !occurrences_append, placeholders_of_update.
  unfold Object_keys. rewrite length_map. simpl. lia.
Qed.

(** X5: an empty record is not refused: [insert] still sends its request,
    with an empty column list and an empty value list, and [update] sends
    an empty [SET] clause with [whereParams] as the only parameters. *)
Theorem empty_record_is_still_sent
  (client : Client) (tableName where_ : string)
  (whereParams : option (list JSValue)) (h : Host client) :
  calls (run client (insert tableName []) h)
    = [(database_execute,
        QueryPayload ("INSERT INTO " ++ tableName ++ " () VALUES ()") [])]
  /\ calls (run client (update tableName [] where_ whereParams) h)
     = [(database_execute,
         QueryPayload ("UPDATE " ++ tableName ++ " SET  WHERE " ++ where_)
           (or_empty whereParams))].
Proof.
  rewrite run_insert, run_update. split; reflexivity.
Qed.

End Placeholders.

Section Results.

Lemma nullish_or_default (a b : JSValue) :
  is_nullish b = false -> is_nullish (a ?? b) = false.
Proof.
  intros B. unfold nullish_or. destruct (is_nullish a) eqn:A; assumption.
Qed.

(** [queryOne]'s choice among the rows. *)
Lemma first_row_or_null (rows : list JSValue) :
  (if (0 <? length rows)%nat then nth 0 rows JUndefined ?? JNull else JNull)
  = match rows with
    | [] => JNull
    | first :: _ => first ?? JNull
    end.
Proof. destruct rows; reflexivity. Qed.

Lemma run_queryOne (client : Client) (q : string)
  (params : option (list JSValue)) (h : Host client) :
  let payload := QueryPayload q (or_empty params) in
  run client (queryOne q params) h
  = (match fst (request client database_query payload h) with
     | Fulfilled answer =>
         Fulfilled match rows answer with
                   | [] => JNull
                   | first :: _ => first ?? JNull
                   end
     | Rejected reason => Rejected reason
     end,
     snd (request client database_query payload h), [(database_query, payload)]).
Proof.
  cbv zeta.
  refine (eq_trans
            (run_request_then client database_query
               (QueryPayload q (or_empty params))
               (fun answer =>
                  if (0 <? length (rows answer))%nat
                  then nth 0 (rows answer) JUndefined ?? JNull else JNull) h) _).
  destruct (fst (request client database_query
                   (QueryPayload q (or_empty params)) h)) as [answer | reason];
    [| reflexivity].
  rewrite first_row_or_null. reflexivity.
Qed.

Lemma run_count (client : Client) (tableName : string) (where_ : option string)
  (whereParams : option (list JSValue)) (h : Host client) :
  exists text : string,
    let payload := QueryPayload text (or_empty whereParams) in
    first_call (count tableName where_ whereParams) = Some (database_query, payload)
    /\ run client (count tableName where_ whereParams) h
       = (match fst (request client database_query payload h) with
          | Fulfilled answer =>
              Fulfilled match rows answer with
                        | [] => JNum 0
                        | first :: _ => get_optional first "count" ?? JNum 0
                        end
          | Rejected reason => Rejected reason
          end,
          snd (request client database_query payload h),
          [(database_query, payload)]).
Proof.
  assert (forall text : string,
             run client
               (Await database_query (QueryPayload text (or_empty whereParams))
                  (fun answer =>
                     Return
                       (get_optional
                          (if (0 <? length (rows answer))%nat
                           then nth 0 (rows answer) JUndefined ?? JNull
                           else JNull) "count" ?? JNum 0))) h
             = (match fst (request client database_query
                             (QueryPayload text (or_empty whereParams)) h) with
                | Fulfilled answer =>
                    Fulfilled match rows answer with
                              | [] => JNum 0
                              | first :: _ => get_optional first "count" ?? JNum 0
                              end
                | Rejected reason => Rejected reason
                end,
                snd (request client database_query
                       (QueryPayload text (or_empty whereParams)) h),
                [(database_query, QueryPayload text (or_empty whereParams))]))
    as Run.
  { intros text.
    rewrite (run_request_then client database_query
               (QueryPayload text (or_empty whereParams))
               (fun answer =>
                  get_optional
                    (if (0 <? length (rows answer))%nat
                     then nth 0 (rows answer) JUndefined ?? JNull
                     else JNull) "count" ?? JNum 0) h).
    destruct (fst (request client database_query
                     (QueryPayload text (or_empty whereParams)) h))
      as [answer | reason]; [| reflexivity].
    rewrite first_row_or_null.
    destruct (rows answer) as [| first rest]; [reflexivity |].
    unfold nullish_or at 2, get_optional.
    destruct (is_nullish first) eqn:N; [reflexivity |].
    rewrite N. reflexivity. }
  destruct where_ as [w |]; [destruct (truthy (JStr w)) eqn:W |].
  - exists ("SELECT COUNT(*) as count FROM " ++ tableName ++ " WHERE " ++ w).
    cbv zeta. unfold count. rewrite W. split; [reflexivity | apply Run].
  - exists ("SELECT COUNT(*) as count FROM " ++ tableName).
    cbv zeta. unfold count. rewrite W. split; [reflexivity | apply Run].
  - exists ("SELECT COUNT(*) as count FROM " ++ tableName).
    cbv zeta. split; [reflexivity | apply Run].
Qed.

(** X6: what the helpers return is never [undefined]: a fulfilled [insert]
    and a fulfilled [count] hold a value that is neither [undefined] nor
    [null], and a fulfilled [queryOne] holds [null] or a row that is neither
    [undefined] nor [null]. *)
Theorem fulfilled_values_are_never_undefined
  (client : Client) (h : Host client) (v : JSValue) :
  (forall tableName data,
      outcome (run client (insert tableName data) h) = Fulfilled v ->
      is_nullish v = false)
  /\ (forall tableName where_ whereParams,
         outcome (run client (count tableName where_ whereParams) h) = Fulfilled v ->
         is_nullish v = false)
  /\ (forall q params,
         outcome (run client (queryOne q params) h) = Fulfilled v ->
         v = JNull \/ is_nullish v = false).
Proof.
  repeat split.
  - intros tableName data. rewrite run_insert. unfold outcome. simpl.
    match goal with
    | |- context [match ?answer with Fulfilled _ => _ | Rejected _ => _ end] =>
        destruct answer as [result | reason]
    end; [| discriminate].
    intros E. injection E as <-. apply nullish_or_default. reflexivity.
  - intros tableName where_ whereParams.
    destruct (run_count client tableName where_ whereParams h) as (text & _ & E).
    rewrite E. clear E. unfold outcome. simpl.
    match goal with
    | |- context [match ?answer with Fulfilled _ => _ | Rejected _ => _ end] =>
        destruct answer as [result | reason]
    end; [| discriminate].
    intros E. injection E as <-.
    destruct (rows result) as [| first rest]; [reflexivity |].
    apply nullish_or_default. reflexivity.
  - intros q params. rewrite run_queryOne. unfold outcome. simpl.
    match goal with
    | |- context [match ?answer with Fulfilled _ => _ | Rejected _ => _ end] =>
        destruct answer as [result | reason]
    end; [| discriminate].
    intros E. injection E as <-.
    destruct (rows result) as [| first rest]; [left; reflexivity |].
    unfold nullish_or.
    destruct (is_nullish first) eqn:N; [left; reflexivity | right; exact N].
Qed.

(** The witness of X6: the host reports identifier 7 for the insertion. *)
Lemma fulfilled_values_are_never_undefined_witness :
  is_nullish (JNum 7) = false.
Proof.
  apply (proj1 (fulfilled_values_are_never_undefined Examples.replay
                  [mkQueryResult [] 1 (JNum 7)] (JNum 7))
           "t" [("a", JNum 1)]).
  reflexivity.
Defined.

(** X7: [count] reads the first row of the answer only: it returns that
    row's [count] when the row has one, and [0] when the answer has no row,
    when its first row is [undefined] or [null], and when that row has no
    [count] (or a [null] one).  A count of zero comes back as the zero the
    host sent. *)
Theorem count_reads_the_first_row
  (client : Client) (tableName : string) (where_ : option string)
  (whereParams : option (list JSValue)) (h h' : Host client)
  (text : string) (bound : list JSValue) (answer : DatabaseQueryResult) :
  first_call (count tableName where_ whereParams)
    = Some (database_query, QueryPayload text bound) ->
  request client database_query (QueryPayload text bound) h
    = (Fulfilled answer, h') ->
  run client (count tableName where_ whereParams) h
  = (Fulfilled match rows answer with
               | [] => JNum 0
               | first :: _ =>
                   if is_nullish (field first "count") then JNum 0
                   else field first "count"
               end,
     h', [(database_query, QueryPayload text bound)]).
Proof.
  intros First Answer.
  destruct (run_count client tableName where_ whereParams h) as (text' & F & E).
  cbv zeta in F, E. rewrite F in First. injection First as <- <-.
  rewrite E, Answer. simpl. f_equal. f_equal. f_equal.
  destruct (rows answer) as [| first rest]; [reflexivity |].
  unfold nullish_or, get_optional.
  destruct (is_nullish first) eqn:N; [| reflexivity].
  destruct first; try discriminate; reflexivity.
Qed.

(** The witness of X7: the first row counts three, the second is ignored. *)
Lemma count_reads_the_first_row_witness :
  run Examples.replay (count "t" None None)
    [mkQueryResult [JObj [("count", JNum 3)]; JObj [("count", JNum 9)]] 0 JUndefined]
  = (Fulfilled (JNum 3), [],
     [(database_query, QueryPayload "SELECT COUNT(*) as count FROM t" [])]).
Proof.
  apply (count_reads_the_first_row Examples.replay "t" None None
           [mkQueryResult [JObj [("count", JNum 3)]; JObj [("count", JNum 9)]]
              0 JUndefined]
           [] "SELECT COUNT(*) as count FROM t" []
           (mkQueryResult [JObj [("count", JNum 3)]; JObj [("count", JNum 9)]]
              0 JUndefined)).
  - reflexivity.
  - reflexivity.
Defined.

End Results.

(* ===================================================================== *)
(** * Further properties of [readManifest] *)
(* ===================================================================== *)

Section ManifestResults.

Import Manifest.

Lemma read_package_json_exact (node : Node) (options : ReadManifestOptions) :
  read_package_json node options
  = (package_warning node options, inr (package_json node options)).
Proof.
  unfold read_package_json, package_warning, package_json, load_json,
    read_file, parse_json.
  destruct (readFileSync node _) as [text |]; cbn; [| reflexivity].
  destruct (JSON_parse node text) as [v |]; reflexivity.
Qed.

(** [readManifest] in closed form, with the console lines of the inner
    [try]. *)
Lemma readManifest_exact (node : Node) (options : ReadManifestOptions) :
  let path := resolvedManifestPath node options in
  readManifest node options
  = match load_json node path with
    | None => ([not_found path], inr None)
    | Some parsed =>
        match merge path parsed (package_json node options) with
        | (out, inl _) =>
            (package_warning node options ++ out ++ [not_found path], inr None)%list
        | (out, inr result) => (package_warning node options ++ out, inr result)%list
        end
    end.
Proof.
  cbv zeta. unfold readManifest, load_json, read_file, parse_json.
  destruct (readFileSync node _) as [text |]; [| reflexivity].
  change (@ret Eff Monad_Eff) with (@pure). rewrite bind_pure.
  destruct (JSON_parse node text) as [parsed |]; [| reflexivity].
  rewrite bind_pure, read_package_json_exact.
  cbn -[merge].
  destruct (merge (resolvedManifestPath node options) parsed
              (package_json node options)) as [out [e | result]];
    cbn; [| reflexivity].
  rewrite <- app_assoc. reflexivity.
Qed.

(** [merge] in closed form. *)
Lemma merge_exact (path : string) (parsed packageJson : JSValue) :
  merge path parsed packageJson
  = if is_nullish parsed then throw TypeError
    else if is_nullish packageJson && negb (supplies_shared_fields parsed)
         then throw TypeError
         else layered path parsed packageJson.
Proof.
  destruct (is_nullish parsed) eqn:P.
  - apply merge_null_manifest. exact P.
  - destruct (is_nullish packageJson) eqn:K; simpl.
    + rewrite merge_null_package by assumption. unfold supplies_shared_fields.
      destruct (supplies parsed "name" && supplies parsed "version"
                && supplies parsed "author" && supplies parsed "homepage");
        reflexivity.
    + apply merge_documents; assumption.
Qed.

(** What [layered] returns and writes. *)
Lemma layered_exact (path : string) (parsed packageJson : JSValue) :
  let name := field parsed "name" ?? field packageJson "name" in
  let version := field parsed "version" ?? field packageJson "version" in
  (exists message : string,
      layered path parsed packageJson = ([Warn message], inr None)
      /\ truthy name && truthy version = false)
  \/ (exists message : string,
         layered path parsed packageJson
         = ([Log message],
            inr (Some
                   {| Manifest.name := name;
                      Manifest.version := version;
                      author := field parsed "author" ?? field packageJson "author"
                                ?? JNull;
                      entry := field parsed "entry" ?? JNull;
                      icon := field parsed "icon" ?? JNull;
                      publicKey := field parsed "publicKey" ?? JStr "";
                      signature := field parsed "signature" ?? JStr "";
                      permissions := field parsed "permissions" ?? no_permissions;
                      homepage := field parsed "homepage"
                                  ?? field packageJson "homepage" ?? JNull;
                      description := field parsed "description" ?? JNull;
                      singleInstance := field parsed "singleInstance" ?? JNull;
                      displayMode := field parsed "displayMode" ?? JNull |}))
         /\ truthy name = true /\ truthy version = true).
Proof.
  cbv zeta. unfold layered.
  destruct (truthy (field parsed "name" ?? field packageJson "name")); simpl.
  - destruct (truthy (field parsed "version" ?? field packageJson "version"));
      simpl.
    + right. eexists. repeat split.
    + left. eexists. split; reflexivity.
  - left. eexists. split; reflexivity.
Qed.

Lemma or_null_is_defined (a : JSValue) : a ?? JNull <> JUndefined.
Proof. unfold nullish_or. destruct a; simpl; discriminate. Qed.

(** The manifest [readManifest] builds from the two documents. *)
Lemma readManifest_success (node : Node) (options : ReadManifestOptions)
  (out : list ConsoleLine) (m : ExtensionManifest) :
  readManifest node options = (out, inr (Some m)) ->
  exists (parsed : JSValue) (message : string),
    let packageJson := package_json node options in
    load_json node (resolvedManifestPath node options) = Some parsed
    /\ is_nullish parsed = false
    /\ (is_nullish packageJson = true -> supplies_shared_fields parsed = true)
    /\ out = (package_warning node options ++ [Log message])%list
    /\ truthy (field parsed "name" ?? field packageJson "name") = true
    /\ truthy (field parsed "version" ?? field packageJson "version") = true
    /\ m = {| Manifest.name := field parsed "name" ?? field packageJson "name";
              Manifest.version := field parsed "version"
                                  ?? field packageJson "version";
              author := field parsed "author" ?? field packageJson "author"
                        ?? JNull;
              entry := field parsed "entry" ?? JNull;
              icon := field parsed "icon" ?? JNull;
              publicKey := field parsed "publicKey" ?? JStr "";
              signature := field parsed "signature" ?? JStr "";
              permissions := field parsed "permissions" ?? no_permissions;
              homepage := field parsed "homepage"
                          ?? field packageJson "homepage" ?? JNull;
              description := field parsed "description" ?? JNull;
              singleInstance := field parsed "singleInstance" ?? JNull;
              displayMode := field parsed "displayMode" ?? JNull |}.
Proof.
  rewrite readManifest_exact. cbv zeta.
  destruct (load_json node (resolvedManifestPath node options)) as [parsed |];
    [| discriminate].
  rewrite merge_exact.
  destruct (is_nullish parsed) eqn:P; [discriminate |].
  destruct (is_nullish (package_json node options)) eqn:K; simpl.
  - destruct (supplies_shared_fields parsed) eqn:S; simpl; [| discriminate].
    destruct (layered_exact (resolvedManifestPath node options) parsed
                (package_json node options))
      as [(message & E & _) | (message & E & N & V)];
      rewrite E; intros R; [discriminate |].
    injection R as <- <-. exists parsed, message.
    repeat split; first [assumption | reflexivity | intros _; assumption].
  - destruct (layered_exact (resolvedManifestPath node options) parsed
                (package_json node options))
      as [(message & E & _) | (message & E & N & V)];
      rewrite E; intros R; [discriminate |].
    injection R as <- <-. exists parsed, message.
    repeat split; first [assumption | reflexivity | discriminate].
Qed.

(** X8: a manifest [readManifest] returns is complete: its [name] and
    [version] are truthy (never missing, never empty), none of its optional
    fields is [undefined] ([null] stands for a missing one), and
    [publicKey], [signature] and [permissions] are neither [undefined] nor
    [null]. *)
Theorem returned_manifest_is_complete
  (node : Node) (options : ReadManifestOptions)
  (out : list ConsoleLine) (m : ExtensionManifest) :
  readManifest node options = (out, inr (Some m)) ->
  truthy (Manifest.name m) = true
  /\ truthy (Manifest.version m) = true
  /\ Forall (fun v => v <> JUndefined)
       [author m; homepage m; entry m; icon m; description m;
        singleInstance m; displayMode m]
  /\ Forall (fun v => is_nullish v = false)
       [publicKey m; signature m; permissions m].
Proof.
  intros R.
  destruct (readManifest_success node options out m R)
    as (parsed & message & _ & _ & _ & _ & N & V & ->).
  simpl. split; [exact N |]. split; [exact V |]. split.
  - repeat constructor; apply or_null_is_defined.
  - repeat constructor; apply nullish_or_default; reflexivity.
Qed.

(** The witness of X8: the manifest read in the notes project. *)
Lemma returned_manifest_is_complete_witness :
  exists m : ExtensionManifest,
    snd (readManifest Examples.notes_project Examples.in_ext) = inr (Some m)
    /\ truthy (Manifest.name m) = true
    /\ truthy (Manifest.version m) = true.
Proof.
  eexists. split; [reflexivity |].
  destruct (returned_manifest_is_complete Examples.notes_project Examples.in_ext
              _ _ eq_refl) as (N & V & _).
  split; [exact N | exact V].
Defined.

(** X9: which document each field of the returned manifest comes from:
    [name], [version], [author] and [homepage] are the manifest's value when
    it supplies one and the value of [package.json] otherwise; [entry],
    [icon], [publicKey], [signature], [permissions], [description],
    [singleInstance] and [displayMode] are the manifest's value or their
    default ([null], the empty string for the two keys, four empty lists for
    the permissions), and [package.json] is never consulted for them. *)
Theorem returned_manifest_fields
  (node : Node) (options : ReadManifestOptions) (parsed : JSValue)
  (out : list ConsoleLine) (m : ExtensionManifest) :
  load_json node (resolvedManifestPath node options) = Some parsed ->
  readManifest node options = (out, inr (Some m)) ->
  let packageJson := package_json node options in
  m = {| Manifest.name := field parsed "name" ?? field packageJson "name";
         Manifest.version := field parsed "version" ?? field packageJson "version";
         author := field parsed "author" ?? field packageJson "author" ?? JNull;
         entry := field parsed "entry" ?? JNull;
         icon := field parsed "icon" ?? JNull;
         publicKey := field parsed "publicKey" ?? JStr "";
         signature := field parsed "signature" ?? JStr "";
         permissions :=
           field parsed "permissions"
           ?? JObj [("database", JArr []); ("filesystem", JArr []);
                    ("http", JArr []); ("shell", JArr [])];
         homepage := field parsed "homepage" ?? field packageJson "homepage"
                     ?? JNull;
         description := field parsed "description" ?? JNull;
         singleInstance := field parsed "singleInstance" ?? JNull;
         displayMode := field parsed "displayMode" ?? JNull |}.
Proof.
  intros L R.
  destruct (readManifest_success node options out m R)
    as (parsed' & message & L' & _ & _ & _ & _ & _ & ->).
  rewrite L in L'. injection L' as <-. reflexivity.
Qed.

(** The witness of X9: the name is the manifest's, the version the one of
    [package.json], the permissions the default. *)
Lemma returned_manifest_fields_witness :
  exists m : ExtensionManifest,
    snd (readManifest Examples.notes_project Examples.in_ext) = inr (Some m)
    /\ m = {| Manifest.name := JStr "notes";
              Manifest.version := JStr "1.2.3";
              author := JNull;
              entry := JNull;
              icon := JNull;
              publicKey := JStr "";
              signature := JStr "";
              permissions := no_permissions;
              homepage := JNull;
              description := JNull;
              singleInstance := JNull;
              displayMode := JNull |}.
Proof.
  eexists. split; [reflexivity |].
  exact (returned_manifest_fields Examples.notes_project Examples.in_ext
           (JObj [("name", JStr "notes")]) _ _ eq_refl eq_refl).
Defined.

(** X10: [package.json] is optional: when it cannot be read or parsed and
    the manifest, a document other than [null], has a truthy [name] and a
    truthy [version] of its own, [readManifest] writes the warning about
    [package.json], logs the load and returns a manifest with the
    manifest's own [name] and [version]. *)
Theorem package_json_is_optional
  (node : Node) (options : ReadManifestOptions) (parsed : JSValue) :
  load_json node (resolvedManifestPath node options) = Some parsed ->
  load_json node (resolvePath node [rootDir options; "package.json"]) = None ->
  is_nullish parsed = false ->
  truthy (field parsed "name") = true ->
  truthy (field parsed "version") = true ->
  exists m : ExtensionManifest,
    readManifest node options
    = ([Warn "[@haexhub/sdk] Warning: Could not read package.json";
        Log (check_mark ++ " [@haexhub/sdk] Loaded "
             ++ resolvedManifestPath node options)],
       inr (Some m))
    /\ Manifest.name m = field parsed "name"
    /\ Manifest.version m = field parsed "version".
Proof.
  intros L K P N V.
  assert (forall x y, truthy x = true -> x ?? y = x) as Keep.
  { intros x y T. apply nullish_or_supplied.
    destruct (is_nullish x) eqn:E; [| reflexivity].
    rewrite (nullish_is_falsy x E) in T. discriminate. }
  rewrite readManifest_exact. cbv zeta. rewrite L, merge_exact, P.
  unfold package_warning, package_json. rewrite K. simpl.
  unfold layered. rewrite !(Keep _ _ N), !(Keep _ _ V), N, V. simpl.
  eexists. repeat split.
Qed.

(** The witness of X10: a project without [package.json]. *)
Lemma package_json_is_optional_witness :
  exists m : ExtensionManifest,
    readManifest
      (Examples.project
         [("/ext/haextension/manifest.json",
           JObj [("name", JStr "notes"); ("version", JStr "0.3.0")])])
      Examples.in_ext
    = ([Warn "[@haexhub/sdk] Warning: Could not read package.json";
        Log (check_mark ++ " [@haexhub/sdk] Loaded /ext/haextension/manifest.json")],
       inr (Some m))
    /\ Manifest.name m = JStr "notes"
    /\ Manifest.version m = JStr "0.3.0".
Proof.
  apply (package_json_is_optional
           (Examples.project
              [("/ext/haextension/manifest.json",
                JObj [("name", JStr "notes"); ("version", JStr "0.3.0")])])
           Examples.in_ext
           (JObj [("name", JStr "notes"); ("version", JStr "0.3.0")]));
    reflexivity.
Defined.

(** X11: a [package.json] that holds [null] is read without a warning but
    cannot be asked for a field: as soon as the manifest lacks one of
    [name], [version], [author] and [homepage], [readManifest] returns
    [null] and the only line written is the warning that the manifest was
    not found, even when the manifest has a name and a version of its own. *)
Theorem null_package_json_needs_the_shared_fields
  (node : Node) (options : ReadManifestOptions) (parsed packageJson : JSValue) :
  load_json node (resolvedManifestPath node options) = Some parsed ->
  load_json node (resolvePath node [rootDir options; "package.json"])
    = Some packageJson ->
  is_nullish parsed = false ->
  is_nullish packageJson = true ->
  supplies_shared_fields parsed = false ->
  readManifest node options
  = ([not_found (resolvedManifestPath node options)], inr None).
Proof.
  intros L K P N S.
  rewrite readManifest_exact. cbv zeta. rewrite L, merge_exact, P.
  unfold package_warning, package_json. rewrite K, N, S. reflexivity.
Qed.

(** The witness of X11: the manifest has a name and a version but no
    author, and [package.json] holds [null]. *)
Lemma null_package_json_needs_the_shared_fields_witness :
  readManifest
    (Examples.project
       [("/ext/haextension/manifest.json",
         JObj [("name", JStr "notes"); ("version", JStr "0.3.0")]);
        ("/ext/package.json", JNull)])
    Examples.in_ext
  = ([not_found "/ext/haextension/manifest.json"], inr None).
Proof.
  apply (null_package_json_needs_the_shared_fields
           (Examples.project
              [("/ext/haextension/manifest.json",
                JObj [("name", JStr "notes"); ("version", JStr "0.3.0")]);
               ("/ext/package.json", JNull)])
           Examples.in_ext
           (JObj [("name", JStr "notes"); ("version", JStr "0.3.0")]) JNull);
    reflexivity.
Defined.

(** X12: when [package.json] is missing, unreadable or any document but
    [null], [readManifest] returns a manifest exactly when the manifest
    file parses to a document other than [null] and both the name and the
    version, each taken from the manifest if it supplies one and from
    [package.json] otherwise, are truthy. *)
Theorem readManifest_returns_a_manifest_iff
  (node : Node) (options : ReadManifestOptions) :
  let packageJson := package_json node options in
  is_nullish packageJson = false ->
  (exists (out : list ConsoleLine) (m : ExtensionManifest),
      readManifest node options = (out, inr (Some m)))
  <-> exists parsed : JSValue,
        load_json node (resolvedManifestPath node options) = Some parsed
        /\ is_nullish parsed = false
        /\ truthy (field parsed "name" ?? field packageJson "name") = true
        /\ truthy (field parsed "version" ?? field packageJson "version") = true.
Proof.
  cbv zeta. intros K. split.
  - intros (out & m & R).
    destruct (readManifest_success node options out m R)
      as (parsed & message & L & P & _ & _ & N & V & _).
    exists parsed. repeat split; assumption.
  - intros (parsed & L & P & N & V).
    rewrite readManifest_exact. cbv zeta. rewrite L, merge_exact, P, K. simpl.
    unfold layered. rewrite N, V. simpl. eexists. eexists. reflexivity.
Qed.

(** The witness of X12: the notes project yields a manifest. *)
Lemma readManifest_returns_a_manifest_iff_witness :
  exists (out : list ConsoleLine) (m : ExtensionManifest),
    readManifest Examples.notes_project Examples.in_ext = (out, inr (Some m)).
Proof.
  apply (proj2 (readManifest_returns_a_manifest_iff Examples.notes_project
                  Examples.in_ext eq_refl)).
  exists (JObj [("name", JStr "notes")]). repeat split.
Defined.

(** X13: the console tells the result: the load is logged exactly when a
    manifest is returned, a [null] result always comes with a warning, at
    most two lines are written, and when the manifest file cannot be read
    or parsed the only line is the warning that it was not found
    ([package.json] is not looked at). *)
Theorem console_tells_the_result
  (node : Node) (options : ReadManifestOptions)
  (out : list ConsoleLine) (result : option ExtensionManifest) :
  readManifest node options = (out, inr result) ->
  (logged out = true <-> result <> None)
  /\ (result = None -> warned out = true)
  /\ length out <= 2
  /\ (load_json node (resolvedManifestPath node options) = None ->
      out = [not_found (resolvedManifestPath node options)]).
Proof.
  rewrite readManifest_exact. cbv zeta.
  destruct (load_json node (resolvedManifestPath node options)) as [parsed |].
  - rewrite merge_exact.
    assert (package_warning node options = []
            \/ exists message, package_warning node options = [Warn message])
      as [W | (message & W)].
    { unfold package_warning. destruct (load_json node _); [left | right; eexists];
        reflexivity. }
    all: rewrite W.
    all: destruct (is_nullish parsed);
      [| destruct (is_nullish (package_json node options)
                   && negb (supplies_shared_fields parsed));
         [| destruct (layered_exact (resolvedManifestPath node options) parsed
                        (package_json node options))
              as [(line & E & _) | (line & E & _)]; rewrite E] ].
    all: simpl; intros R; injection R as <- <-; simpl.
    all: repeat split; try discriminate; try reflexivity; try lia;
      try congruence.
  - intros R. injection R as <- <-. simpl.
    repeat split; try discriminate; try reflexivity; try lia; try congruence.
Qed.

(** The witness of X13: the nameless project gets a warning and no log. *)
Lemma console_tells_the_result_witness :
  warned (fst (readManifest Examples.nameless_project Examples.in_ext)) = true.
Proof.
  apply (proj1 (proj2 (console_tells_the_result Examples.nameless_project
                         Examples.in_ext _ None eq_refl))).
  reflexivity.
Defined.

(** X14: how the options choose the manifest file: an empty [manifestPath]
    is no [manifestPath]; an omitted [extensionDir] is ["haextension"]; and
    with a [manifestPath] that is not empty [extensionDir] plays no part. *)
Theorem manifest_path_options
  (node : Node) (root path : string) (dir dir' : option string) :
  readManifest node (mkOptions root (Some "") dir)
    = readManifest node (mkOptions root None dir)
  /\ readManifest node (mkOptions root None None)
     = readManifest node (mkOptions root None (Some "haextension"))
  /\ (path <> "" ->
      readManifest node (mkOptions root (Some path) dir)
      = readManifest node (mkOptions root (Some path) dir')).
Proof.
  split; [reflexivity |]. split; [reflexivity |].
  intros NotEmpty.
  unfold readManifest, read_package_json, resolvedManifestPath. simpl.
  destruct (path =? "") eqn:E; [| reflexivity].
  apply String.eqb_eq in E. contradiction.
Qed.

(** The witness of X14: an explicit path, two extension directories. *)
Lemma manifest_path_options_witness :
  readManifest Examples.notes_project
    (mkOptions "/ext" (Some "haextension/manifest.json") None)
  = readManifest Examples.notes_project
      (mkOptions "/ext" (Some "haextension/manifest.json") (Some "elsewhere")).
Proof.
  apply (proj2 (proj2 (manifest_path_options Examples.notes_project "/ext"
                         "haextension/manifest.json" None (Some "elsewhere")))).
  discriminate.
Defined.

(** X15: [readManifest] looks at two files and no other: two file systems
    that agree on the manifest file and on [package.json] give the same
    result and the same console lines. *)
Theorem readManifest_reads_two_files
  (node node' : Node) (options : ReadManifestOptions) :
  (forall parts, resolvePath node parts = resolvePath node' parts) ->
  (forall text, JSON_parse node text = JSON_parse node' text) ->
  readFileSync node (resolvedManifestPath node options)
    = readFileSync node' (resolvedManifestPath node options) ->
  readFileSync node (resolvePath node [rootDir options; "package.json"])
    = readFileSync node' (resolvePath node [rootDir options; "package.json"]) ->
  readManifest node options = readManifest node' options.
Proof.
  intros Resolve Parse ManifestFile PackageFile.
  assert (resolvedManifestPath node' options = resolvedManifestPath node options)
    as Path.
  { unfold resolvedManifestPath.
    destruct (manifestPath options) as [p |]; [destruct (truthy (JStr p)) |];
      symmetry; apply Resolve. }
  assert (forall path, readFileSync node path = readFileSync node' path ->
                       load_json node' path = load_json node path) as Load.
  { intros path Same. unfold load_json. rewrite <- Same.
    destruct (readFileSync node path) as [text |]; [| reflexivity].
    symmetry. apply Parse. }
  rewrite !readManifest_exact. cbv zeta.
  unfold package_warning, package_json.
  rewrite Path, <- !Resolve, !(Load _ ManifestFile), !(Load _ PackageFile).
  reflexivity.
Qed.

(** The witness of X15: one more file in the project changes nothing. *)
Lemma readManifest_reads_two_files_witness :
  readManifest Examples.notes_project Examples.in_ext
  = readManifest
      (mkNode
         (fun path =>
            if path =? "/ext/README.md" then Some "/ext/README.md"
            else readFileSync Examples.notes_project path)
         (JSON_parse Examples.notes_project)
         (resolvePath Examples.notes_project))
      Examples.in_ext.
Proof.
  apply readManifest_reads_two_files; reflexivity.
Defined.

End ManifestResults.

(* ===================================================================== *)
(** * Operations in a row, and parameters against columns *)
(* ===================================================================== *)

Section InARow.

(** X16: awaiting two operations in a row issues the request of the first
    and then, if the first was fulfilled, the request of the second, which
    is the one it issues on its own: nothing the first operation did or
    received changes it.  When the first request is rejected the second
    operation is not started. *)
Theorem two_operations_in_a_row
  (client : Client) (op1 op2 : Operation) (h : Host client) :
  exists c1 c2 : Call,
    first_call (invoke op1) = Some c1
    /\ first_call (invoke op2) = Some c2
    /\ calls (run client (invoke op1 ;; invoke op2) h)
       = c1 :: match outcome (run client (invoke op1) h) with
               | Fulfilled _ => [c2]
               | Rejected _ => []
               end.
Proof.
  destruct (first_call (invoke op1)) as [c1 |] eqn:F1;
    [| exfalso; exact (invoke_starts_with_a_request op1 F1)].
  destruct (first_call (invoke op2)) as [c2 |] eqn:F2;
    [| exfalso; exact (invoke_starts_with_a_request op2 F2)].
  exists c1, c2. split; [reflexivity |]. split; [reflexivity |].
  rewrite run_bind.
  pose proof (invoke_makes_one_call client op1 h c1 F1) as C1.
  destruct (run client (invoke op1) h) as [[[a | reason] h'] issued];
    unfold calls, outcome in *; simpl in *; subst issued; [| reflexivity].
  pose proof (invoke_makes_one_call client op2 h' c2 F2) as C2.
  destruct (run client (invoke op2) h') as [[o h''] issued'].
  unfold calls in C2. simpl in *. subst issued'. reflexivity.
Qed.

(** X17: the bound parameters line up with the columns: pairing the keys
    the SQL text of [insert] is built from with the bound parameters, in
    order, gives back the record; for [update] the parameters that follow
    the record's values are [whereParams]. *)
Theorem parameters_line_up_with_columns
  (client : Client) (tableName where_ : string) (data : Record_)
  (whereParams : option (list JSValue)) (h : Host client) :
  (exists bound : list JSValue,
      calls (run client (insert tableName data) h)
        = [(database_execute,
            QueryPayload (insert_query tableName (Object_keys data)) bound)]
      /\ combine (Object_keys data) bound = data)
  /\ exists bound : list JSValue,
       calls (run client (update tableName data where_ whereParams) h)
         = [(database_execute,
             QueryPayload (update_query tableName (Object_keys data) where_) bound)]
       /\ combine (Object_keys data) bound = data
       /\ skipn (length data) bound = or_empty whereParams.
Proof.
  assert (forall rest : list JSValue,
             combine (Object_keys data) (Object_values data ++ rest)%list = data)
    as Zip.
  { intros rest. unfold Object_keys, Object_values.
    induction data as [| [k v] more IH]; simpl; [reflexivity |].
    rewrite IH. reflexivity. }
  split.
  - exists (Object_values data). rewrite run_insert. split; [reflexivity |].
    rewrite <- (app_nil_r (Object_values data)). apply Zip.
  - exists (Object_values data ++ or_empty whereParams)%list.
    rewrite run_update. split; [reflexivity |]. split; [apply Zip |].
    unfold Object_values.
    rewrite skipn_app, length_map, Nat.sub_diag, skipn_all2;
      [reflexivity | rewrite length_map; lia].
Qed.

End InARow.
